(** * Conferência de requerimentos: the data-reconciliation core of [app_reqV.py]

    A shallow embedding of the functions of [app_reqV.py] that normalise the
    headers of the two uploaded tables, validate their schema, clean the
    NUSP column, join the current requests against the consolidated history
    and compute the overview metrics, followed by the properties proved
    about them.

    Conventions of the embedding.
    - Python [str] values are [string]s holding the UTF-8 bytes of the text;
      [lower] and [strip] act on the characters up to U+00FF, which cover
      Portuguese headers.
    - A pandas [DataFrame] is a [frame]: its column labels in order and its
      rows, each row a list of cells in column order.
    - Python exceptions are values of [exn]; a function that may raise
      returns a [result]; the Streamlit calls [st.warning] and [st.error]
      are [event]s collected in order by the monad [M].
    - [int64] and [float64] columns are idealised by [Z] and [Q]: integers
      and finite floats are exact, and the numeric coercion is written
      cell by cell.  The statements that depend on the value of a
      coerced identifier are stated for identifiers within the range
      where this agrees with the 64-bit formats ([exact_cell]).  *)

From Stdlib Require Import ZArith QArith String Ascii.
From stdpp Require Import gmap strings list pretty.

Local Open Scope string_scope.
Local Open Scope Z_scope.
Local Open Scope list_scope.

(* ================================================================= *)
(** ** Python text *)

Definition nl : string := String "010" "".

Definition code (c : ascii) : N := N_of_ascii c.

Definition in_range (lo hi : N) (n : N) : bool := ((lo <=? n) && (n <=? hi))%N.

(** [str.lower()] on the UTF-8 bytes of a text: the ASCII capitals and the
    capitals of the Latin-1 block (U+00C0..U+00DE except the sign U+00D7,
    encoded as the lead byte 195 and one continuation byte) are mapped to
    their small letters; every other byte is kept. *)
Fixpoint lower_bytes (l : list ascii) : list ascii :=
  match l with
  | [] => []
  | c :: l' =>
      if in_range 65 90 (code c) then ascii_of_N (code c + 32) :: lower_bytes l'
      else if (code c =? 195)%N then
        match l' with
        | d :: l'' =>
            c :: (if in_range 128 158 (code d) && negb (code d =? 151)%N
                  then ascii_of_N (code d + 32) else d) :: lower_bytes l''
        | [] => [c]
        end
      else c :: lower_bytes l'
  end.

Definition lower (s : string) : string :=
  string_of_list_ascii (lower_bytes (list_ascii_of_string s)).

(** The one-byte characters [str.strip()] removes: tab, line feed,
    vertical tab, form feed, carriage return, the four separators
    U+001C..U+001F and the space. *)
Definition is_py_space (c : ascii) : bool :=
  in_range 9 13 (code c) || in_range 28 32 (code c).

(** [lstrip]: also removes U+0085 and U+00A0 (lead byte 194). *)
Fixpoint lstrip_bytes (l : list ascii) : list ascii :=
  match l with
  | c :: l' =>
      if is_py_space c then lstrip_bytes l'
      else if (code c =? 194)%N then
        match l' with
        | d :: l'' =>
            if (code d =? 133)%N || (code d =? 160)%N then lstrip_bytes l'' else l
        | [] => l
        end
      else l
  | [] => []
  end.

(** The same scan on the reversed text, where the continuation byte of
    U+0085 and U+00A0 comes first. *)
Fixpoint lstrip_rev_bytes (l : list ascii) : list ascii :=
  match l with
  | c :: l' =>
      if is_py_space c then lstrip_rev_bytes l'
      else if (code c =? 133)%N || (code c =? 160)%N then
        match l' with
        | d :: l'' => if (code d =? 194)%N then lstrip_rev_bytes l'' else l
        | [] => l
        end
      else l
  | [] => []
  end.

Definition strip (s : string) : string :=
  string_of_list_ascii
    (rev (lstrip_rev_bytes (rev (lstrip_bytes (list_ascii_of_string s))))).

(** [pat in s] for two texts: [pat] occurs in [s] as a substring. *)
Fixpoint contains (pat s : string) : bool :=
  String.prefix pat s ||
  match s with
  | String _ s' => contains pat s'
  | EmptyString => false
  end.

(** A regular expression that is an alternation of literal texts, as
    ['aprovado'] and ['indeferido|negado'] are; [re_search] is what
    [Series.str.contains] decides for one text. *)
Definition regex := list string.

Definition re_search (pat : regex) (s : string) : bool :=
  existsb (fun alt => contains alt s) pat.

(* ================================================================= *)
(** ** Exceptions and Streamlit effects *)

Inductive exn :=
  | ValueError (msg : string)
  | TypeError (msg : string)
  | KeyError (msg : string)
  | ZeroDivisionError (msg : string).

Definition exn_str (e : exn) : string :=
  match e with
  | ValueError msg | TypeError msg | ZeroDivisionError msg => msg
  | KeyError key => "'" +:+ key +:+ "'"
  end.

Inductive result (A : Type) :=
  | Return (a : A)
  | Raise (e : exn).
Arguments Return {A} a.
Arguments Raise {A} e.

#[global] Instance result_bind : MBind result := fun A B k r =>
  match r with
  | Return a => k a
  | Raise e => Raise e
  end.

#[global] Instance result_ret : MRet result := fun A a => Return a.

Inductive event :=
  | StWarning (msg : string)
  | StError (msg : string).

(** A computation that has shown the events of its first component, in
    order, and then returned or raised. *)
Definition M (A : Type) : Type := list event * result A.

#[global] Instance M_bind : MBind M := fun A B k m =>
  match m with
  | (evs, Return a) => let '(evs', r) := k a in (evs ++ evs', r)
  | (evs, Raise e) => (evs, Raise e)
  end.

#[global] Instance M_ret : MRet M := fun A a => ([], Return a).

(** A pure step that may raise shows nothing. *)
Definition lift {A} (r : result A) : M A := ([], r).

Definition st_warning (msg : string) : M unit := ([StWarning msg], Return tt).

(* ================================================================= *)
(** ** Tables *)

(** A column label.  [read_csv] yields text labels; [read_excel] keeps a
    numeric header cell as a number, which is why the source applies
    [str(col)] before normalising. *)
Inductive label :=
  | LStr (s : string)
  | LInt (z : Z).

Definition py_str (c : label) : string :=
  match c with
  | LStr s => s
  | LInt z => pretty z
  end.

(** A cell: missing ([None]/[NaN]), an integer, a finite float, an
    infinite float, or text. *)
Inductive cell :=
  | NaN
  | VInt (z : Z)
  | VFloat (q : Q)
  | VInf (negative : bool)
  | VStr (s : string).

Record frame := Frame {
  columns : list label;
  rows : list (list cell)
}.

#[global] Instance label_eq_dec : EqDecision label.
Proof. solve_decision. Defined.

#[global] Instance label_countable : Countable label.
Proof.
  refine (inj_countable'
    (fun c => match c with LStr s => inl s | LInt z => inr z end)
    (fun x => match x with inl s => LStr s | inr z => LInt z end) _).
  intros []; reflexivity.
Defined.

#[global] Instance Q_eq_dec : EqDecision Q.
Proof. solve_decision. Defined.

#[global] Instance cell_eq_dec : EqDecision cell.
Proof. solve_decision. Defined.

#[global] Instance cell_countable : Countable cell.
Proof.
  refine (inj_countable'
    (fun c => match c with
              | NaN => inl (inl tt)
              | VInt z => inl (inr z)
              | VFloat q => inr (inl (Qnum q, Qden q))
              | VInf b => inr (inr (inl b))
              | VStr s => inr (inr (inr s))
              end)
    (fun x => match x with
              | inl (inl _) => NaN
              | inl (inr z) => VInt z
              | inr (inl (n, d)) => VFloat (Qmake n d)
              | inr (inr (inl b)) => VInf b
              | inr (inr (inr s)) => VStr s
              end) _).
  intros [| |[]| |]; reflexivity.
Defined.

(** [c in df.columns] *)
Definition in_columns (c : label) (df : frame) : bool :=
  bool_decide (c ∈ columns df).

(** The positions of the columns labelled [c]. *)
Fixpoint positions_from (i : nat) (c : label) (cols : list label) : list nat :=
  match cols with
  | [] => []
  | c' :: cols' =>
      if decide (c' = c) then i :: positions_from (S i) c cols'
      else positions_from (S i) c cols'
  end.

Definition positions (c : label) (cols : list label) : list nat :=
  positions_from 0 c cols.

(** The cell of a row at a position; a row too short has nothing there. *)
Definition at_pos (i : nat) (r : list cell) : cell := default NaN (r !! i).

(** [df.rename(columns=mapper)]: every label that is a key of the mapper
    is replaced by its value. *)
Definition rename (mapper : gmap label label) (df : frame) : frame :=
  Frame ((fun c => default c (mapper !! c)) <$> columns df) (rows df).

(** The entries of a list at the positions where [keep] holds. *)
Fixpoint select {A} (keep : list bool) (l : list A) : list A :=
  match keep, l with
  | k :: keep', x :: l' => if k then x :: select keep' l' else select keep' l'
  | _, _ => []
  end.

(** [df.drop(columns=[c])] *)
Definition drop_column (c : label) (df : frame) : frame :=
  let keep := (fun c' => bool_decide (c' ≠ c)) <$> columns df in
  Frame (select keep (columns df)) (select keep <$> rows df).

(* ================================================================= *)
(** ** Header Normalizer: [find_and_rename_nusp_column] *)

Definition rename_map : list (string * list string) :=
  [ ("nusp", ["nusp"; "numero usp"; "número usp"; "n° usp"; "n usp"]);
    ("problema", ["problema"]);
    ("Nome completo", ["nome completo"]);
    ("parecer_sg", ["parecer do serviço de graduação"; "parecer serviço de graduação"]);
    ("obs_sg", ["observação do sg"; "observacao sg"; "observação sg"]);
    ("link_requerimento", ["links pedidos requerimento"]);
    ("link_plano_estudos", ["link plano de estudos"]);
    ("link_plano_presenca", ["link plano de presença"]) ].

(** [str(col).lower().strip()] *)
Definition normalized_col (col : label) : string := strip (lower (py_str col)).

(** The inner loop over [rename_map.items()]: the first standard name
    one of whose variations is the normalised label. *)
Fixpoint standard_name_in (table : list (string * list string)) (normalized : string)
  : option string :=
  match table with
  | [] => None
  | (standard_name, variations) :: table' =>
      if bool_decide (normalized ∈ variations) then Some standard_name
      else standard_name_in table' normalized
  end.

Definition standard_name (col : label) : option string :=
  standard_name_in rename_map (normalized_col col).

(** The outer loop: the dict [actual_renames] after the columns seen so
    far. *)
Definition actual_renames (cols : list label) : gmap label label :=
  foldl (fun renames col =>
           match standard_name col with
           | Some name => <[col := LStr name]> renames
           | None => renames
           end) ∅ cols.

(** [', '.join(items)]: raises at the first item that is not a [str]. *)
Fixpoint join_from (i : nat) (sep : string) (items : list label) : result string :=
  match items with
  | [] => Return ""
  | LStr s :: items' =>
      rest ← join_from (S i) sep items';
      mret (match items' with [] => s | _ => s +:+ sep +:+ rest end)
  | LInt _ :: _ =>
      Raise (TypeError ("sequence item " +:+ pretty i
                        +:+ ": expected str instance, int found"))
  end.

Definition join (sep : string) (items : list label) : result string :=
  join_from 0 sep items.

Definition missing_nusp_message (available : string) : string :=
  "Coluna de Número USP não encontrada. Colunas disponíveis: " +:+ available.

Definition find_and_rename_nusp_column (df : frame) : result frame :=
  let renames := actual_renames (columns df) in
  let df := if bool_decide (renames ≠ ∅) then rename renames df else df in
  if negb (in_columns (LStr "nusp") df) then
    available ← join ", " (columns df);
    Raise (ValueError (missing_nusp_message available))
  else Return df.

(* ================================================================= *)
(** ** Schema Validator: [validate_dataframes] *)

Definition required_cols_consolidado : list string :=
  ["nusp"; "disciplina"; "Ano"; "Semestre"; "problema"; "parecer"].

Definition required_cols_requerimentos : list string :=
  ["nusp"; "Nome completo"; "problema"].

(** [[col for col in required if col not in df.columns]] *)
Definition missing_cols (required : list string) (df : frame) : list string :=
  filter (fun col => LStr col ∉ columns df) required.

Definition validate_dataframes (df_consolidado df_requerimentos : frame) : result unit :=
  let missing_consolidado := missing_cols required_cols_consolidado df_consolidado in
  let missing_requerimentos := missing_cols required_cols_requerimentos df_requerimentos in
  let errors :=
    (if bool_decide (missing_consolidado ≠ [])
     then ["Arquivo consolidado: colunas faltando - "
             +:+ String.concat ", " missing_consolidado]
     else [])
    ++
    (if bool_decide (missing_requerimentos ≠ [])
     then ["Arquivo requerimentos: colunas faltando - "
             +:+ String.concat ", " missing_requerimentos]
     else []) in
  if bool_decide (errors ≠ []) then Raise (ValueError (String.concat nl errors))
  else Return tt.

(* ================================================================= *)
(** ** Record Cleaner: [preprocess_data] *)

(** *** [pd.to_numeric(..., errors='coerce')] on one cell

    Numbers are kept.  A text is read by the numeric tokenizer: blanks, a
    sign, digits with an optional fractional part, an optional exponent,
    blanks; a text without point and exponent is an integer, any other a
    float.  The spellings of infinity are accepted; every other text is
    coerced to [NaN].

    The value read is the exact value of the digits.  pandas rounds it to
    the nearest float, reads an integer beyond 64 bits as a float and
    refuses an exponent beyond the range of the floats; [exact_text]
    bounds the texts on which the two readings give the same
    identifier. *)

Definition is_c_space (c : ascii) : bool :=
  in_range 9 13 (code c) || (code c =? 32)%N.

Definition is_digit (c : ascii) : bool := in_range 48 57 (code c).

Definition digit_value (c : ascii) : Z := Z.of_N (code c - 48).

Fixpoint skip_spaces (p : list ascii) : list ascii :=
  match p with
  | c :: p' => if is_c_space c then skip_spaces p' else p
  | [] => []
  end.

Definition scan_sign (p : list ascii) : bool * list ascii :=
  match p with
  | "-"%char :: p' => (true, p')
  | "+"%char :: p' => (false, p')
  | _ => (false, p)
  end.

(** The digits at the head of [p], accumulated onto [acc]; [n] counts
    them. *)
Fixpoint scan_digits (acc : Z) (n : nat) (p : list ascii) : Z * nat * list ascii :=
  match p with
  | c :: p' =>
      if is_digit c then scan_digits (10 * acc + digit_value c) (S n) p'
      else (acc, n, p)
  | [] => (acc, n, [])
  end.

Definition scan_fraction (acc : Z) (p : list ascii) : Z * nat * bool * list ascii :=
  match p with
  | "."%char :: p' => let '(m, n, rest) := scan_digits acc 0 p' in (m, n, true, rest)
  | _ => (acc, 0%nat, false, p)
  end.

(** An exponent mark without digits is not consumed. *)
Definition scan_exponent (p : list ascii) : Z * bool * list ascii :=
  match p with
  | c :: p' =>
      if (code c =? 101)%N || (code c =? 69)%N then
        let '(negative, digits) := scan_sign p' in
        let '(e, n, rest) := scan_digits 0 0 digits in
        if (n =? 0)%nat then (0, false, p)
        else (if negative then - e else e, true, rest)
      else (0, false, p)
  | [] => (0, false, [])
  end.

(** [m * 10 ^ e] *)
Definition scale10 (m e : Z) : Q :=
  if 0 <=? e then (m * 10 ^ e) # 1 else m # Z.to_pos (10 ^ (- e)).

Definition xstrtod (s : list ascii) : option cell :=
  let '(negative, p) := scan_sign (skip_spaces s) in
  let '(int_part, n_int, p) := scan_digits 0 0 p in
  let '(mantissa, n_frac, has_point, p) := scan_fraction int_part p in
  if (n_int + n_frac =? 0)%nat then None
  else
    let '(exponent, has_exponent, p) := scan_exponent p in
    let m := if negative then - mantissa else mantissa in
    match skip_spaces p with
    | [] =>
        Some (if has_point || has_exponent
              then VFloat (scale10 m (exponent - Z.of_nat n_frac))
              else VInt m)
    | _ :: _ => None
    end.

Definition to_numeric_text (s : string) : cell :=
  match xstrtod (list_ascii_of_string s) with
  | Some v => v
  | None =>
      let word := lower s in
      if bool_decide (word ∈ ["inf"; "+inf"; "infinity"; "+infinity"]) then VInf false
      else if bool_decide (word ∈ ["-inf"; "-infinity"]) then VInf true
      else NaN
  end.

Definition to_numeric (c : cell) : cell :=
  match c with
  | VStr s => to_numeric_text s
  | _ => c
  end.

(** [isna] *)
Definition isna (c : cell) : bool :=
  match c with
  | NaN => true
  | _ => false
  end.

(** [astype(int)] on one cell: a float is truncated towards zero; a
    value that is not finite cannot be cast.  The integer is not bounded
    here, where pandas has 64 bits ([exact_cell] bounds it in the
    statements); the text of the [ValueError] is the one pandas 2
    gives. *)
Definition truncate (q : Q) : Z := Z.quot (Qnum q) (Zpos (Qden q)).

Definition astype_int (c : cell) : result cell :=
  match c with
  | VInt z => Return (VInt z)
  | VFloat q => Return (VInt (truncate q))
  | NaN | VInf _ =>
      Raise (ValueError "Cannot convert non-finite values (NA or inf) to integer")
  | VStr s =>
      Raise (ValueError ("invalid literal for int() with base 10: '" +:+ s +:+ "'"))
  end.

(** *** Column access by position *)

(** The column at position [i], as a list of cells. *)
Definition series (i : nat) (df : frame) : list cell := at_pos i <$> rows df.

(** Assigns the values [vs] to the column at position [i]. *)
Definition setitem (i : nat) (vs : list cell) (df : frame) : frame :=
  Frame (columns df) (zip_with (fun r v => <[i := v]> r) (rows df) vs).

(** [df.dropna(subset=[c])] for the column at position [i]. *)
Definition dropna (i : nat) (df : frame) : frame :=
  Frame (columns df) (filter (fun r => isna (at_pos i r) = false) (rows df)).

Definition count_na (vs : list cell) : nat := length (filter (fun v => isna v = true) vs).

Definition removed_warning (nulos_antes : nat) (file_name : string) : string :=
  "⚠️ Removidos " +:+ pretty nulos_antes
    +:+ " registros com NUSP inválido do arquivo '" +:+ file_name +:+ "'".

(** [df["nusp"]] is a column when exactly one column has that label; it
    is a [KeyError] when none has, and a table, which [pd.to_numeric]
    refuses, when several have. *)
Definition preprocess_data (df : frame) (file_name : string) : M frame :=
  match positions (LStr "nusp") (columns df) with
  | [] => lift (Raise (KeyError "nusp"))
  | [i] =>
      let df := setitem i (to_numeric <$> series i df) df in
      let nulos_antes := count_na (series i df) in
      let df := dropna i df in
      (if bool_decide (0 < nulos_antes)%nat
       then st_warning (removed_warning nulos_antes file_name)
       else mret tt);;
      nusp ← lift (mapM astype_int (series i df));
      mret (setitem i nusp df)
  | _ :: _ :: _ =>
      lift (Raise (TypeError "arg must be a list, tuple, 1-d array, or Series"))
  end.

(* ================================================================= *)
(** ** Reconciler: the join and the partition of [run_app] *)

(** The position of the one column labelled [c]. *)
Definition locate (c : label) (df : frame) : result nat :=
  match positions c (columns df) with
  | [i] => Return i
  | [] => Raise (KeyError (py_str c))
  | _ :: _ :: _ =>
      Raise (ValueError ("The column label '" +:+ py_str c +:+ "' is not unique."))
  end.

(** [df[c]] as a column.  With several columns labelled [c] pandas gives
    a table instead; what the caller then does with it is summarised by
    the exception of [locate]. *)
Definition getitem (c : label) (df : frame) : result (list cell) :=
  i ← locate c df; mret (series i df).

(** A label that both tables have receives the suffix of its side. *)
Definition with_suffix (to_rename : list label) (suffix : string) (c : label) : label :=
  if bool_decide (c ∈ to_rename) then LStr (py_str c +:+ suffix) else c.

(** The rows of the right table that match the row [l] of the left table
    on the key, each appended to [l] without its own key cell. *)
Definition matches (i j : nat) (right_rows : list (list cell)) (l : list cell)
  : list (list cell) :=
  (fun r => l ++ delete j r) <$> filter (fun r => at_pos j r = at_pos i l) right_rows.

(** [left.merge(right, on=key, how="inner")]: the rows follow the order of
    the left table; the columns are those of the left table and then
    those of the right table without its key column.  pandas refuses,
    with a [MergeError], a join in which a label that receives a suffix
    becomes equal to another label of the result; this refusal is not
    part of the definition, which then returns the table with the two
    equal labels. *)
Definition merge (left right : frame) (key : label) : result frame :=
  i ← locate key left;
  j ← locate key right;
  let right_columns := delete j (columns right) in
  let to_rename := filter (fun c => c ∈ right_columns) (columns left) in
  mret (Frame ((with_suffix to_rename "_x" <$> columns left)
                 ++ (with_suffix to_rename "_y" <$> right_columns))
              (rows left ≫= matches i j (rows right))).

(** [df[~df[c].isin(values)]] *)
Definition not_isin (c : label) (values : gset cell) (df : frame) : result frame :=
  i ← locate c df;
  mret (Frame (columns df) (filter (fun r => at_pos i r ∉ values) (rows df))).

Record reconciliation := Reconciliation {
  alunos_com_historico : frame;
  nusps_com_historico : gset cell;
  df_novos : frame
}.

Definition reconcile (df_requerimentos df_consolidado : frame) : result reconciliation :=
  alunos_com_historico ← merge df_requerimentos df_consolidado (LStr "nusp");
  nusp ← getitem (LStr "nusp") alunos_com_historico;
  let nusps_com_historico : gset cell := list_to_set nusp in
  df_novos ← not_isin (LStr "nusp") nusps_com_historico df_requerimentos;
  mret (Reconciliation alunos_com_historico nusps_com_historico df_novos).

(** [set(df["nusp"])] *)
Definition nusp_set (df : frame) : result (gset cell) :=
  nusp ← getitem (LStr "nusp") df; mret (list_to_set nusp).

(* ================================================================= *)
(** ** The processing block of [run_app] *)

Definition cols_to_rename_hist : gmap label label :=
  list_to_map ((fun c => (LStr c, LStr (c +:+ "_historico")))
                 <$> ["disciplina"; "Ano"; "Semestre"; "problema"; "parecer"]).

Definition optional_cols : list string :=
  ["parecer_sg"; "obs_sg"; "link_requerimento"; "link_plano_estudos";
   "link_plano_presenca"].

Definition req_rename_map (df_requerimentos : frame) : gmap label label :=
  foldl (fun m c =>
           if in_columns (LStr c) df_requerimentos
           then <[LStr c := LStr (c +:+ "_atual")]> m else m)
        {[ LStr "problema" := LStr "problema_atual" ]} optional_cols.

Record processed := Processed {
  df_consolidado : frame;
  df_requerimentos : frame;
  reconciled : reconciliation
}.

(** Lines 349 to 378: the two loaded tables go through the normalizer,
    the validator, the cleaner and the reconciler.  The debug expander
    between the normalizer and the validator only displays the column
    lists. *)
Definition process (df_consolidado df_requerimentos : frame)
    (name_consolidado name_requerimentos : string) : M processed :=
  df_consolidado ← lift (find_and_rename_nusp_column df_consolidado);
  df_requerimentos ← lift (find_and_rename_nusp_column df_requerimentos);
  lift (validate_dataframes df_consolidado df_requerimentos);;
  let df_consolidado :=
    if in_columns (LStr "Nome completo") df_consolidado
    then drop_column (LStr "Nome completo") df_consolidado else df_consolidado in
  df_consolidado ← preprocess_data df_consolidado name_consolidado;
  df_requerimentos ← preprocess_data df_requerimentos name_requerimentos;
  let df_consolidado := rename cols_to_rename_hist df_consolidado in
  let df_requerimentos := rename (req_rename_map df_requerimentos) df_requerimentos in
  reconciled ← lift (reconcile df_requerimentos df_consolidado);
  mret (Processed df_consolidado df_requerimentos reconciled).

(** What the two handlers of the [try] block show. *)
Definition validation_error (msg : string) : event :=
  StError ("❌ **Erro de Validação:**" +:+ nl +:+ nl +:+ msg +:+ nl +:+ nl
           +:+ "Por favor, verifique a estrutura dos seus arquivos.").

Definition unexpected_error (msg : string) : event :=
  StError ("❌ **Ocorreu um erro inesperado:**" +:+ nl +:+ nl +:+ msg +:+ nl +:+ nl
           +:+ "Verifique o formato dos arquivos.").

(** The processing block inside the [try] block (through line 378) with
    the two handlers: a [ValueError] is shown as a validation error, any
    other exception as an unexpected error.  The calls that display the
    three tabs (lines 380 to 391) are inside the same [try] block and
    are not part of this definition: the result returned here is what
    they are given. *)
Definition run_app (df_consolidado df_requerimentos : frame)
    (name_consolidado name_requerimentos : string) : list event * option processed :=
  match process df_consolidado df_requerimentos name_consolidado name_requerimentos with
  | (evs, Return p) => (evs, Some p)
  | (evs, Raise (ValueError msg)) => (evs ++ [validation_error msg], None)
  | (evs, Raise e) => (evs ++ [unexpected_error (exn_str e)], None)
  end.

(* ================================================================= *)
(** ** Aggregator: the metrics of [display_overview] *)

(** [a / b] on integers *)
Definition truediv (a b : Z) : result Q :=
  if b =? 0 then Raise (ZeroDivisionError "division by zero")
  else Return (inject_Z a / inject_Z b)%Q.

(** [Series.nunique()]: missing values are not counted. *)
Definition nunique (vs : list cell) : nat :=
  size (list_to_set (filter (fun v => isna v = false) vs) : gset cell).

(** [(part / total * 100) if total > 0 else 0] *)
Definition percentual_historico (alunos_unicos_com_hist total_alunos_req : nat)
  : result Q :=
  if bool_decide (0 < total_alunos_req)%nat
  then q ← truediv (Z.of_nat alunos_unicos_com_hist) (Z.of_nat total_alunos_req);
       mret (q * 100)%Q
  else mret 0%Q.

(** [Series.str.lower()]: a cell that is not a text gives a missing
    value. *)
Definition str_lower (c : cell) : option string :=
  match c with
  | VStr s => Some (lower s)
  | _ => None
  end.

(** [Series.str.contains(pat, na=False)] on one element *)
Definition str_contains (pat : regex) (parecer : option string) : bool :=
  match parecer with
  | Some s => re_search pat s
  | None => false
  end.

Definition aprovado (parecer : option string) : bool :=
  str_contains ["aprovado"] parecer && negb (str_contains ["indeferido"; "negado"] parecer).

Definition negado (parecer : option string) : bool :=
  str_contains ["indeferido"; "negado"] parecer.

(** [mask.sum()] *)
Definition mask_sum (mask : list bool) : nat := length (filter (fun b => b = true) mask).

(** [(aprovados / (aprovados + negados) * 100) if aprovados + negados > 0 else 0] *)
Definition taxa_aprovacao (aprovados negados : nat) : result Q :=
  if bool_decide (0 < aprovados + negados)%nat
  then q ← truediv (Z.of_nat aprovados) (Z.of_nat (aprovados + negados));
       mret (q * 100)%Q
  else mret 0%Q.

Record overview := Overview {
  total_req : nat;
  alunos_unicos_com_hist : nat;
  total_alunos_req : nat;
  percentual : Q;
  alunos_novos : nat;
  aprovados : nat;
  negados : nat;
  taxa : option Q
}.

(** The metrics shown by [display_overview]; the approval rate is computed
    only when the joined table has rows.  The decision column is a text
    column, on which the [.str] accessor applies.  The counts by problem
    type and the two charts are left out. *)
Definition display_overview (df_requerimentos alunos_com_historico df_novos : frame)
  : result overview :=
  let total_req := length (rows df_requerimentos) in
  nusp_hist ← getitem (LStr "nusp") alunos_com_historico;
  let alunos_unicos_com_hist := nunique nusp_hist in
  nusp_req ← getitem (LStr "nusp") df_requerimentos;
  let total_alunos_req := nunique nusp_req in
  percentual ← percentual_historico alunos_unicos_com_hist total_alunos_req;
  nusp_novos ← getitem (LStr "nusp") df_novos;
  if bool_decide (rows alunos_com_historico ≠ []) then
    parecer_historico ← getitem (LStr "parecer_historico") alunos_com_historico;
    let pareceres := str_lower <$> parecer_historico in
    let aprovados := mask_sum (aprovado <$> pareceres) in
    let negados := mask_sum (negado <$> pareceres) in
    taxa ← taxa_aprovacao aprovados negados;
    mret (Overview total_req alunos_unicos_com_hist total_alunos_req percentual
            (nunique nusp_novos) aprovados negados (Some taxa))
  else
    mret (Overview total_req alunos_unicos_com_hist total_alunos_req percentual
            (nunique nusp_novos) 0 0 None).

(* ================================================================= *)
(** ** Predicates used in the statements *)

(** A cleaned table: one column is labelled [nusp] and every row holds an
    integer there. *)
Definition cleaned (df : frame) : Prop :=
  exists i, positions (LStr "nusp") (columns df) = [i] /\
            forall r, r ∈ rows df -> exists z, r !! i = Some (VInt z).

(** What the normalizer makes of one label. *)
Definition canonical (col : label) : label :=
  match standard_name col with
  | Some name => LStr name
  | None => col
  end.

(** [astype(int)] as a total function on the cells it accepts. *)
Definition as_int (c : cell) : cell :=
  match c with
  | VFloat q => VInt (truncate q)
  | _ => c
  end.

(** The identifier of a row after numeric coercion, and the row once its
    identifier is cast to an integer. *)
Definition coerced (i : nat) (r : list cell) : cell := to_numeric (at_pos i r).

Definition clean_row (i : nat) (r : list cell) : list cell :=
  <[i := as_int (coerced i r)]> r.

(** The events of a cleaner that removed [n] rows. *)
Definition removal_events (n : nat) (file_name : string) : list event :=
  if bool_decide (0 < n)%nat then [StWarning (removed_warning n file_name)] else [].

(** The spellings accepted for the NUSP column. *)
Definition nusp_variations : list string :=
  ["nusp"; "numero usp"; "número usp"; "n° usp"; "n usp"].

(** The table after the renaming step of the normalizer. *)
Definition renamed (df : frame) : frame := Frame (canonical <$> columns df) (rows df).

(* ================================================================= *)
(** ** Tables used as examples *)

(** The first scenario of the specification, as uploaded. *)
Definition historico_calculus : frame :=
  Frame [LStr "NUSP"; LStr "disciplina"; LStr "Ano"; LStr "Semestre"; LStr "Problema";
         LStr "parecer"]
        [[VInt 123; VStr "Calculus"; VInt 2023; VInt 1; VStr "QR"; VStr "Aprovado"]].

Definition requerimentos_ana_bruno : frame :=
  Frame [LStr "Número USP"; LStr "Nome Completo"; LStr "problema"]
        [[VInt 123; VStr "Ana"; VStr "QR"]; [VInt 456; VStr "Bruno"; VStr "CH"]].

(** Two historical records of one student, for different courses. *)
Definition historico_dois_cursos : frame :=
  Frame [LStr "nusp"; LStr "disciplina_historico"]
        [[VInt 123; VStr "Calculus"]; [VInt 123; VStr "Physics"]].

Definition requerimento_ana : frame :=
  Frame [LStr "nusp"; LStr "Nome completo"] [[VInt 123; VStr "Ana"]].

(** A table whose header row holds the number 2023. *)
Definition planilha_2023 : frame :=
  Frame [LInt 2023; LStr "Nome"] [[VInt 10; VStr "Ana"]].

(** A current table without the full-name column, with one identifier
    that is not a number. *)
Definition requerimentos_sem_nome : frame :=
  Frame [LStr "NUSP"; LStr "Problema"] [[VStr "abc"; VStr "QR"]; [VInt 789; VStr "CH"]].

(** The two tables of the first scenario once cleaned and renamed. *)
Definition historico_limpo : frame :=
  Frame [LStr "nusp"; LStr "disciplina_historico"; LStr "Ano_historico";
         LStr "Semestre_historico"; LStr "problema_historico"; LStr "parecer_historico"]
        [[VInt 123; VStr "Calculus"; VInt 2023; VInt 1; VStr "QR"; VStr "Aprovado"]].

Definition requerimentos_limpos : frame :=
  Frame [LStr "nusp"; LStr "Nome completo"; LStr "problema_atual"]
        [[VInt 123; VStr "Ana"; VStr "QR"]; [VInt 456; VStr "Bruno"; VStr "CH"]].

(** The second scenario: one identifier that is not a number. *)
Definition requerimentos_abc : frame :=
  Frame [LStr "nusp"; LStr "Nome completo"; LStr "problema"]
        [[VStr "abc"; VStr "Carla"; VStr "QR"]; [VInt 789; VStr "Davi"; VStr "CH"]].

(** A current table with a negative identifier. *)
Definition requerimentos_negativo : frame :=
  Frame [LStr "nusp"; LStr "Nome completo"; LStr "problema"]
        [[VInt (-5); VStr "Ana"; VStr "QR"]].



(** An infinite value. *)
Definition is_inf (c : cell) : bool :=
  match c with
  | VInf _ => true
  | _ => false
  end.

(** A text made of blanks only. *)
Definition blank (s : string) : Prop :=
  Forall (fun c => is_c_space c = true) (list_ascii_of_string s).

(** The value of the digits [ds] read after the value [acc]. *)
Definition digits_onto (acc : Z) (ds : list ascii) : Z :=
  foldl (fun a c => 10 * a + digit_value c) acc ds.

Definition is_warning (e : event) : Prop :=
  match e with
  | StWarning _ => True
  | StError _ => False
  end.

(** At most [n] events, all of them warnings. *)
Definition only_warnings (n : nat) (evs : list event) : Prop :=
  Forall is_warning evs /\ (length evs <= n)%nat.

(** What [process] returns on the first scenario. *)
Definition processed_ana_bruno : processed :=
  Processed historico_limpo requerimentos_limpos
    (Reconciliation
       (Frame [LStr "nusp"; LStr "Nome completo"; LStr "problema_atual";
               LStr "disciplina_historico"; LStr "Ano_historico";
               LStr "Semestre_historico"; LStr "problema_historico";
               LStr "parecer_historico"]
              [[VInt 123; VStr "Ana"; VStr "QR"; VStr "Calculus"; VInt 2023; VInt 1;
                VStr "QR"; VStr "Aprovado"]])
       {[ VInt 123 ]}
       (Frame (columns requerimentos_limpos) [[VInt 456; VStr "Bruno"; VStr "CH"]])).

(* ================================================================= *)
(** ** The table of new students: [display_new_students] *)

Definition optional_atual_cols : list string :=
  ["parecer_sg_atual"; "obs_sg_atual"; "link_requerimento_atual";
   "link_plano_estudos_atual"; "link_plano_presenca_atual"].

(** Lines 287 to 292: the three fixed columns, then each optional column
    that the table has. *)
Definition display_cols (df_novos : frame) : list string :=
  ["nusp"; "Nome completo"; "problema_atual"]
    ++ filter (fun c => LStr c ∈ columns df_novos) optional_atual_cols.

(* ================================================================= *)
(** ** Formatting for display: [format_parecer], [format_problem_type] *)

(** [str.upper()] on the UTF-8 bytes of a text, for the characters up to
    U+00FF: the ASCII and Latin-1 small letters become capitals; the
    sharp s becomes "SS", the y with diaeresis becomes U+0178 and the
    micro sign becomes U+039C; every other byte is kept. *)
Fixpoint upper_bytes (l : list ascii) : list ascii :=
  match l with
  | [] => []
  | c :: l' =>
      if in_range 97 122 (code c) then ascii_of_N (code c - 32) :: upper_bytes l'
      else if (code c =? 195)%N then
        match l' with
        | d :: l'' =>
            if (code d =? 159)%N then "S"%char :: "S"%char :: upper_bytes l''
            else if (code d =? 191)%N
            then ascii_of_N 197 :: ascii_of_N 184 :: upper_bytes l''
            else if in_range 160 190 (code d) && negb (code d =? 183)%N
            then c :: ascii_of_N (code d - 32) :: upper_bytes l''
            else c :: d :: upper_bytes l''
        | [] => [c]
        end
      else if (code c =? 194)%N then
        match l' with
        | d :: l'' =>
            if (code d =? 181)%N
            then ascii_of_N 206 :: ascii_of_N 156 :: upper_bytes l''
            else c :: d :: upper_bytes l''
        | [] => [c]
        end
      else c :: upper_bytes l'
  end.

Definition upper (s : string) : string :=
  string_of_list_ascii (upper_bytes (list_ascii_of_string s)).

(** [Series.str.upper()]: a cell that is not a text gives a missing
    value. *)
Definition str_upper (c : cell) : option string :=
  match c with
  | VStr s => Some (upper s)
  | _ => None
  end.

(** Lines 183 and 184: [(column.str.upper() == code).sum()]. *)
Definition total_with_code (code : string) (problema_historico : list cell) : nat :=
  mask_sum ((fun c => bool_decide (str_upper c = Some code)) <$> problema_historico).

Definition total_qr : list cell -> nat := total_with_code "QR".
Definition total_ch : list cell -> nat := total_with_code "CH".

Section Formatting.

(** [str(x)] for a finite float [x], which Python defines. *)
Variable float_str : Q -> string.

(** [str(value)] for the value of a cell. *)
Definition cell_str (c : cell) : string :=
  match c with
  | NaN => "nan"
  | VInt z => pretty z
  | VFloat q => float_str q
  | VInf negative => if negative then "-inf" else "inf"
  | VStr s => s
  end.

Definition format_parecer (parecer : cell) : string :=
  if isna parecer then "📝 Pendente"
  else
    let parecer_str := lower (cell_str parecer) in
    if contains "negado" parecer_str || contains "indeferido" parecer_str
    then "❌ " +:+ cell_str parecer
    else if contains "aprovado" parecer_str then "✅ " +:+ cell_str parecer
    else "📝 " +:+ cell_str parecer.

Definition format_problem_type (problem : cell) : string :=
  if isna problem then "⚪ Não especificado"
  else
    let problem := upper (cell_str problem) in
    if bool_decide (problem = "QR") then "🔴 Quebra de Requisito"
    else if bool_decide (problem = "CH") then "🟡 Conflito de Horário"
    else "⚪ " +:+ problem.

End Formatting.

(** The columns of a table that carry the label [c], in order. *)
Definition labelled (c : label) (df : frame) : list (list cell) :=
  (fun k => series k df) <$> positions c (columns df).

(** What [run_app] shows for an exception. *)
Definition shown_error (e : exn) : event :=
  match e with
  | ValueError msg => validation_error msg
  | _ => unexpected_error (exn_str e)
  end.


(* ================================================================= *)
(** ** Identifiers within the exact range

    The cells hold exact integers and rationals where pandas holds
    64-bit integers and binary floating-point numbers, and the numeric
    coercion is written cell by cell where pandas converts a whole
    column, to floats as soon as one of its cells is a float or is
    missing.  The two readings give the same rows on the identifiers
    described here.
    - An integer is below [2 ^ 53] in absolute value, so that it is the
      same number as an integer and as a float.
    - A float is a binary fraction [n / 2 ^ k] with [n] below [2 ^ 53]
      in absolute value and [k] at most 1074: a value of the [float64]
      format, whose integer part fits the integer format.
    - A text holds no NUL character, which ends the text for the
      tokenizer; when it reads as a number it has no exponent and at
      most 15 digits.  Its value [m / 10 ^ k] is then at least
      [10 ^ -k] away from the next integer, further than the nearest
      float is from it, so the float and the exact value have the same
      integer part; and an integer of 15 digits is below [2 ^ 53].
    Missing and infinite values are the same in both readings. *)

Definition is_exponent_mark (c : ascii) : bool :=
  (code c =? 101)%N || (code c =? 69)%N.

Definition exact_text (s : string) : bool :=
  let p := list_ascii_of_string s in
  forallb (fun c => negb (code c =? 0)%N) p
  && match xstrtod p with
     | Some _ =>
         forallb (fun c => negb (is_exponent_mark c)) p
         && (length (List.filter is_digit p) <=? 15)%nat
     | None => true
     end.

Definition exact_cell (c : cell) : bool :=
  match c with
  | NaN | VInf _ => true
  | VInt z => Z.abs z <? 2 ^ 53
  | VFloat q =>
      (Z.abs (Qnum q) <? 2 ^ 53)
      && (Z.pos (Qden q) =? 2 ^ Z.log2 (Z.pos (Qden q)))
      && (Z.log2 (Z.pos (Qden q)) <=? 1074)
  | VStr s => exact_text s
  end.

(** Every cell of every column labelled [nusp] is within the exact
    range. *)
Definition exact_identifiers (df : frame) : bool :=
  forallb (fun i => forallb (fun r => exact_cell (at_pos i r)) (rows df))
          (positions (LStr "nusp") (columns df)).

(* ================================================================= *)
(** ** The labels of the two tables when they are joined *)

(** Lines 368 to 374: the labels of the current table after its
    renaming. *)
Definition current_labels (df_requerimentos : frame) : list label :=
  columns (rename (req_rename_map df_requerimentos) df_requerimentos).

(** Lines 359, 360, 365 and 366: the labels of the historical table
    without [Nome completo], after its renaming. *)
Definition historical_labels (df_consolidado : frame) : list label :=
  columns (rename cols_to_rename_hist
             (if in_columns (LStr "Nome completo") df_consolidado
              then drop_column (LStr "Nome completo") df_consolidado
              else df_consolidado)).

(** The labels of the left table that the right table has too; the join
    gives a suffix to those that are not the key. *)
Definition shared_labels (left right : list label) : list label :=
  filter (fun c => c ∈ right) left.

(** A current table with one identifier that is not a number and one
    that is infinite. *)
Definition requerimentos_infinito : frame :=
  Frame [LStr "nusp"; LStr "Nome completo"; LStr "problema"]
        [[VStr "abc"; VStr "Carla"; VStr "QR"]; [VStr "inf"; VStr "Davi"; VStr "CH"]].
(* ================================================================= *)
(** * Properties *)

(** ** Positions of a label *)

Lemma positions_from_spec k c cols n :
  n ∈ positions_from k c cols <-> exists m, n = (k + m)%nat /\ cols !! m = Some c.
Proof.
  revert k; induction cols as [|c' cols IH]; intros k; simpl.
  - split; [intros H; inversion H | intros (m & _ & H); discriminate].
  - destruct (decide (c' = c)) as [->|Hne].
    + rewrite elem_of_cons, IH. split.
      * intros [->|(m & -> & Hm)]; [exists 0%nat | exists (S m)]; split; auto with lia.
      * intros (m & -> & Hm). destruct m as [|m]; [left; lia|].
        right; exists m; split; [lia | exact Hm].
    + rewrite IH. split.
      * intros (m & -> & Hm). exists (S m). split; [lia | exact Hm].
      * intros (m & -> & Hm). destruct m as [|m]; simpl in Hm; [congruence|].
        exists m; split; [lia | exact Hm].
Qed.

Lemma positions_from_nil k c cols : c ∉ cols -> positions_from k c cols = [].
Proof.
  revert k; induction cols as [|c' cols IH]; intros k Hc; simpl; [done|].
  rewrite not_elem_of_cons in Hc. destruct Hc as [Hne Hc].
  destruct (decide (c' = c)); [congruence | auto].
Qed.

Lemma positions_from_app k c cols1 cols2 :
  positions_from k c (cols1 ++ cols2)
  = positions_from k c cols1 ++ positions_from (k + length cols1) c cols2.
Proof.
  revert k; induction cols1 as [|c' cols1 IH]; intros k; simpl.
  - by rewrite Nat.add_0_r.
  - rewrite IH. replace (S k + length cols1)%nat with (k + S (length cols1))%nat by lia.
    by destruct (decide (c' = c)).
Qed.

Lemma positions_from_fmap k c (f : label -> label) cols :
  (forall c', c' ∈ cols -> f c' = c <-> c' = c) ->
  positions_from k c (f <$> cols) = positions_from k c cols.
Proof.
  revert k; induction cols as [|c' cols IH]; intros k Hf; simpl; [done|].
  rewrite IH by (intros; apply Hf; by right).
  specialize (Hf c' ltac:(by left)).
  destruct (decide (f c' = c)), (decide (c' = c)); tauto.
Qed.

(** The only column labelled [c] is the one removed. *)
Lemma positions_delete c cols j : positions c cols = [j] -> c ∉ delete j cols.
Proof.
  intros H (m & Hm)%list_elem_of_lookup.
  assert (Hone : forall n, cols !! n = Some c -> n = j).
  { intros n Hn.
    assert (Hin : (0 + n)%nat ∈ positions c cols) by (apply positions_from_spec; eauto).
    rewrite H in Hin. apply list_elem_of_singleton in Hin. lia. }
  destruct (decide (m < j)%nat) as [Hlt|Hge].
  - rewrite list_lookup_delete_lt in Hm by done. apply Hone in Hm. lia.
  - rewrite list_lookup_delete_ge in Hm by lia. apply Hone in Hm. lia.
Qed.

Lemma locate_Return c df i : locate c df = Return i <-> positions c (columns df) = [i].
Proof.
  unfold locate. destruct (positions c (columns df)) as [|n [|n' l]]; split; try done.
  - by intros [= ->].
  - by intros [= ->].
Qed.

(** ** Row-wise reading of the column operations *)

Lemma frame_eta df : Frame (columns df) (rows df) = df.
Proof. by destruct df. Qed.

Lemma at_pos_insert i v r :
  at_pos i (<[i := v]> r) = if decide (i < length r)%nat then v else NaN.
Proof.
  unfold at_pos. destruct (decide (i < length r)%nat) as [Hlt|Hge].
  - by rewrite list_lookup_insert_eq.
  - rewrite list_insert_ge by lia. rewrite lookup_ge_None_2 by lia. done.
Qed.

Lemma at_pos_short i r : ¬ (i < length r)%nat -> at_pos i r = NaN.
Proof. intros H. unfold at_pos. by rewrite lookup_ge_None_2 by lia. Qed.

(** Assigning [f] of a column to the same column rewrites each row. *)
Lemma setitem_fmap i f df :
  setitem i (f <$> series i df) df
  = Frame (columns df) ((fun r => <[i := f (at_pos i r)]> r) <$> rows df).
Proof.
  unfold setitem, series. f_equal.
  rewrite <- list_fmap_compose, zip_with_fmap_r, zip_with_diag. done.
Qed.

Lemma mapM_astype_int vs ws :
  mapM astype_int vs = Return ws ->
  Forall2 (fun v w => astype_int v = Return w) vs ws.
Proof.
  revert ws; induction vs as [|v vs IH]; intros ws; simpl.
  - intros [= <-]. constructor.
  - unfold mbind at 1, result_bind. destruct (astype_int v) as [w|] eqn:Hv; [|done].
    unfold mbind at 1, result_bind. destruct (mapM astype_int vs) as [ws'|]; [|done].
    intros [= <-]. constructor; auto.
Qed.

Lemma filter_fmap {A B} (f : A -> B) (P : B -> Prop) `{!forall x, Decision (P x)} (l : list A) :
  filter P (f <$> l) = f <$> filter (fun x => P (f x)) l.
Proof.
  induction l as [|x l IH]; [done|]. rewrite fmap_cons, !filter_cons.
  destruct (decide (P (f x))); rewrite IH; done.
Qed.

Lemma to_numeric_not_text c s : to_numeric c <> VStr s.
Proof.
  destruct c as [| | | |t]; simpl; try done.
  unfold to_numeric_text.
  destruct (xstrtod _) as [v|] eqn:Hx.
  - unfold xstrtod in Hx.
    destruct (scan_sign _) as [negative p].
    destruct (scan_digits 0 0 p) as [[int_part n_int] p1].
    destruct (scan_fraction int_part p1) as [[[mantissa n_frac] has_point] p2].
    destruct (n_int + n_frac =? 0)%nat; [done|].
    destruct (scan_exponent p2) as [[exponent has_exponent] p3].
    destruct (skip_spaces p3); [|done].
    injection Hx as <-. by destruct (has_point || has_exponent).
  - repeat case_bool_decide; done.
Qed.

Lemma coerced_insert i r :
  at_pos i (<[i := to_numeric (at_pos i r)]> r) = coerced i r.
Proof.
  rewrite at_pos_insert. unfold coerced. case_decide as H; [done|].
  by rewrite (at_pos_short _ _ H).
Qed.

Lemma astype_int_as_int v w : astype_int v = Return w -> w = as_int v.
Proof. destruct v; simpl; congruence. Qed.

Lemma mapM_astype_int_fmap vs ws :
  mapM astype_int vs = Return ws -> ws = as_int <$> vs.
Proof.
  intros H%mapM_astype_int. induction H as [|v w vs ws Hv _ IH]; [done|].
  simpl. by rewrite (astype_int_as_int _ _ Hv), IH.
Qed.

Lemma mapM_astype_int_finite vs :
  Forall (fun v => exists z, as_int v = VInt z) vs ->
  mapM astype_int vs = Return (as_int <$> vs).
Proof.
  induction 1 as [|v vs (z & Hz) _ IH]; [done|].
  simpl. rewrite IH. destruct v; simpl in *; try done.
Qed.

(** ** The cleaner, row by row *)

Lemma preprocess_data_eq df name i :
  positions (LStr "nusp") (columns df) = [i] ->
  let kept := filter (fun r => isna (coerced i r) = false) (rows df) in
  let n := length (filter (fun r => isna (coerced i r) = true) (rows df)) in
  preprocess_data df name
  = (removal_events n name,
     mapM astype_int (coerced i <$> kept) ≫= fun _ =>
       Return (Frame (columns df) (clean_row i <$> kept))).
Proof.
  intros Hi kept n. unfold preprocess_data. rewrite Hi.
  rewrite setitem_fmap. unfold dropna, series, count_na. simpl columns. simpl rows.
  rewrite <- !list_fmap_compose, !filter_fmap, !length_fmap.
  assert (Hf : forall b,
            filter (fun x => isna (at_pos i (<[i := to_numeric (at_pos i x)]> x)) = b)
                   (rows df)
            = filter (fun r => isna (coerced i r) = b) (rows df))
    by (intros; apply list_filter_iff; intros; by rewrite coerced_insert).
  unfold compose. rewrite !Hf.
  fold kept n.
  assert (Hs : at_pos i <$> ((fun r => <[i := to_numeric (at_pos i r)]> r) <$> kept)
               = coerced i <$> kept).
  { rewrite <- list_fmap_compose. apply list_fmap_ext. intros. apply coerced_insert. }
  rewrite Hs.
  assert (Hcast : forall ws, mapM astype_int (coerced i <$> kept) = Return ws ->
            setitem i ws (Frame (columns df)
              ((fun r => <[i := to_numeric (at_pos i r)]> r) <$> kept))
            = Frame (columns df) (clean_row i <$> kept)).
  { intros ws ->%mapM_astype_int_fmap. unfold setitem. simpl. f_equal.
    rewrite <- list_fmap_compose, zip_with_fmap_l, zip_with_fmap_r, zip_with_diag.
    apply list_fmap_ext. intros _ r _. simpl.
    by rewrite list_insert_insert_eq. }
  unfold removal_events.
  destruct (mapM astype_int (coerced i <$> kept)) as [ws|e] eqn:Hws;
    case_bool_decide; simpl; try rewrite (Hcast ws eq_refl); reflexivity.
Qed.

(** The cleaner returns exactly when the table has one [nusp] column and
    no identifier is infinite. *)
Lemma preprocess_data_Return df name i :
  positions (LStr "nusp") (columns df) = [i] ->
  (forall r b, r ∈ rows df -> coerced i r <> VInf b) ->
  preprocess_data df name
  = (removal_events
       (length (filter (fun r => isna (coerced i r) = true) (rows df))) name,
     Return (Frame (columns df)
               (clean_row i <$> filter (fun r => isna (coerced i r) = false) (rows df)))).
Proof.
  intros Hi Hfin. rewrite (preprocess_data_eq df name i Hi). cbv zeta.
  rewrite mapM_astype_int_finite; [done|].
  apply Forall_fmap, Forall_forall. intros r [Hna Hr]%list_elem_of_filter. simpl.
  specialize (Hfin r). pose proof (to_numeric_not_text (at_pos i r)) as Htext.
  unfold coerced in *. destruct (to_numeric (at_pos i r)); simpl; eauto.
  - done.
  - by destruct (Hfin negative Hr).
  - by destruct (Htext s).
Qed.

Lemma preprocess_data_inv df name evs df' :
  preprocess_data df name = (evs, Return df') ->
  exists i, positions (LStr "nusp") (columns df) = [i] /\
    (forall r b, r ∈ rows df -> coerced i r <> VInf b) /\
    evs = removal_events
            (length (filter (fun r => isna (coerced i r) = true) (rows df))) name /\
    df' = Frame (columns df)
            (clean_row i <$> filter (fun r => isna (coerced i r) = false) (rows df)).
Proof.
  intros H.
  destruct (positions (LStr "nusp") (columns df)) as [|i [|i' l]] eqn:Hi;
    try (unfold preprocess_data in H; rewrite Hi in H; discriminate).
  exists i. split; [done|].
  rewrite (preprocess_data_eq df name i Hi) in H. cbv zeta in H.
  destruct (mapM astype_int _) as [ws|e] eqn:Hws; [|discriminate].
  simpl in H. injection H as <- <-. split; [|done].
  intros r b Hr Hinf. apply mapM_astype_int in Hws.
  assert (Hkept : r ∈ filter (fun r => isna (coerced i r) = false) (rows df)).
  { apply list_elem_of_filter. split; [by rewrite Hinf | done]. }
  apply (list_elem_of_fmap_2 (coerced i)) in Hkept.
  apply list_elem_of_lookup in Hkept as (k & Hk).
  destruct (Forall2_lookup_l _ _ _ _ _ Hws Hk) as (w & _ & Hw).
  rewrite Hinf in Hw. discriminate.
Qed.

Lemma kept_row_long i r : isna (coerced i r) = false -> (i < length r)%nat.
Proof.
  intros H. destruct (decide (i < length r)%nat) as [|Hshort]; [done|].
  unfold coerced in H. by rewrite (at_pos_short _ _ Hshort) in H.
Qed.

Lemma kept_row_int i r :
  isna (coerced i r) = false -> (forall b, coerced i r <> VInf b) ->
  exists z, as_int (coerced i r) = VInt z.
Proof.
  intros Hna Hfin. pose proof (to_numeric_not_text (at_pos i r)) as Htext.
  unfold coerced in *. destruct (to_numeric (at_pos i r)); simpl; eauto.
  - done.
  - by destruct (Hfin negative).
  - by destruct (Htext s).
Qed.

Lemma clean_row_lookup i r :
  isna (coerced i r) = false -> clean_row i r !! i = Some (as_int (coerced i r)).
Proof. intros H%kept_row_long. unfold clean_row. by rewrite list_lookup_insert_eq. Qed.

Lemma at_pos_lookup i r v : r !! i = Some v -> at_pos i r = v.
Proof. unfold at_pos. by intros ->. Qed.

(** What the cleaner returns is a cleaned table. *)
Lemma preprocess_data_cleaned df name evs df' :
  preprocess_data df name = (evs, Return df') -> cleaned df'.
Proof.
  intros (i & Hi & Hfin & _ & ->)%preprocess_data_inv. exists i. split; [done|].
  simpl. intros r' (r & -> & [Hna Hr]%list_elem_of_filter)%list_elem_of_fmap.
  destruct (kept_row_int i r Hna) as (z & Hz); [intros b; by apply Hfin|].
  exists z. by rewrite clean_row_lookup, Hz.
Qed.

Lemma filter_all {A} (P : A -> Prop) `{!forall x, Decision (P x)} (l : list A) :
  (forall x, x ∈ l -> P x) -> filter P l = l.
Proof.
  induction l as [|x l IH]; intros Hl; [done|].
  rewrite filter_cons_True by (apply Hl; by left).
  f_equal. apply IH. intros y Hy. apply Hl. by right.
Qed.

Lemma filter_none {A} (P : A -> Prop) `{!forall x, Decision (P x)} (l : list A) :
  (forall x, x ∈ l -> ¬ P x) -> filter P l = [].
Proof.
  induction l as [|x l IH]; intros Hl; [done|].
  rewrite filter_cons_False by (apply Hl; by left).
  apply IH. intros y Hy. apply Hl. by right.
Qed.

Lemma fmap_fixed {A} (f : A -> A) (l : list A) :
  (forall x, x ∈ l -> f x = x) -> f <$> l = l.
Proof.
  induction l as [|x l IH]; intros Hl; [done|].
  rewrite fmap_cons, Hl by (by left). f_equal. apply IH. intros y Hy. apply Hl. by right.
Qed.

(** On a cleaned table the cleaner changes nothing and shows nothing. *)
Lemma preprocess_data_cleaned_id df name :
  cleaned df -> preprocess_data df name = ([], Return df).
Proof.
  intros (i & Hi & Hint).
  assert (Hco : forall r, r ∈ rows df ->
            exists z, r !! i = Some (VInt z) /\ coerced i r = VInt z).
  { intros r (z & Hz)%Hint. exists z. split; [done|].
    unfold coerced. by rewrite (at_pos_lookup _ _ _ Hz). }
  rewrite (preprocess_data_Return df name i Hi).
  - rewrite filter_none, filter_all.
    + rewrite fmap_fixed, frame_eta; [done|].
      intros r (z & Hz & Hc)%Hco. unfold clean_row. rewrite Hc. simpl.
      by apply list_insert_id.
    + intros r (z & _ & ->)%Hco. done.
    + intros r (z & _ & ->)%Hco. done.
  - intros r b (z & _ & ->)%Hco. done.
Qed.

(** ** The renaming step of the normalizer *)

Lemma foldl_renames_lookup (acc : gmap label label) cols c :
  foldl (fun renames col =>
           match standard_name col with
           | Some name => <[col := LStr name]> renames
           | None => renames
           end) acc cols !! c
  = if decide (c ∈ cols)
    then match standard_name c with
         | Some name => Some (LStr name)
         | None => acc !! c
         end
    else acc !! c.
Proof.
  revert acc; induction cols as [|c' cols IH]; intros acc; simpl; [done|].
  rewrite IH. destruct (decide (c = c')) as [->|Hne].
  - rewrite (decide_True (P := c' ∈ c' :: cols)) by (by left).
    destruct (standard_name c') as [name|] eqn:Hname.
    + rewrite lookup_insert_eq. by case_decide.
    + by case_decide.
  - assert (Hacc : match standard_name c' with
                   | Some name => <[c' := LStr name]> acc
                   | None => acc
                   end !! c = acc !! c).
    { destruct (standard_name c'); [by rewrite lookup_insert_ne | done]. }
    rewrite Hacc. destruct (decide (c ∈ cols)) as [Hin|Hnin].
    + by rewrite (decide_True (P := c ∈ c' :: cols)) by (by right).
    + rewrite (decide_False (P := c ∈ c' :: cols)); [done|].
      rewrite not_elem_of_cons. done.
Qed.

Lemma actual_renames_lookup cols c :
  c ∈ cols -> default c (actual_renames cols !! c) = canonical c.
Proof.
  intros Hc. unfold actual_renames. rewrite foldl_renames_lookup.
  rewrite decide_True by done. unfold canonical.
  by destruct (standard_name c).
Qed.

Lemma actual_renames_empty cols c :
  actual_renames cols = ∅ -> c ∈ cols -> canonical c = c.
Proof.
  intros He Hc. rewrite <- (actual_renames_lookup cols c Hc), He. done.
Qed.

Lemma rename_step df :
  (if bool_decide (actual_renames (columns df) ≠ ∅)
   then rename (actual_renames (columns df)) df else df) = renamed df.
Proof.
  unfold renamed. case_bool_decide as He.
  - unfold rename. f_equal. apply list_fmap_ext. intros k c Hk.
    apply actual_renames_lookup. by apply list_elem_of_lookup_2 in Hk.
  - rewrite <- (frame_eta df) at 1. f_equal.
    symmetry. apply fmap_fixed. intros c Hc. by apply (actual_renames_empty (columns df)).
Qed.

Lemma find_and_rename_eq df :
  find_and_rename_nusp_column df
  = if negb (in_columns (LStr "nusp") (renamed df))
    then available ← join ", " (columns (renamed df));
         Raise (ValueError (missing_nusp_message available))
    else Return (renamed df).
Proof. unfold find_and_rename_nusp_column. cbv zeta. by rewrite rename_step. Qed.

Lemma standard_name_in_table table normalized name :
  standard_name_in table normalized = Some name -> name ∈ table.*1.
Proof.
  induction table as [|[standard variations] table IH]; simpl; [done|].
  case_bool_decide; [intros [= ->]; by left | intros Hrest; right; auto].
Qed.

Lemma canonical_idem c : canonical (canonical c) = canonical c.
Proof.
  unfold canonical at 2 3. destruct (standard_name c) as [name|] eqn:Hname.
  - apply standard_name_in_table in Hname. simpl in Hname.
    repeat (apply elem_of_cons in Hname as [->|Hname]; [by vm_compute|]).
    inversion Hname.
  - unfold canonical. by rewrite Hname.
Qed.

Lemma renamed_idem df : renamed (renamed df) = renamed df.
Proof.
  unfold renamed. simpl. f_equal. rewrite <- list_fmap_compose.
  apply list_fmap_ext. intros. apply canonical_idem.
Qed.

(** A label becomes [nusp] exactly when its normalised form is one of
    the accepted spellings. *)
Lemma canonical_nusp c :
  canonical c = LStr "nusp" <-> normalized_col c ∈ nusp_variations.
Proof.
  assert (Hname : standard_name c
                  = if bool_decide (normalized_col c ∈ nusp_variations)
                    then Some "nusp"
                    else standard_name_in (tail rename_map) (normalized_col c))
    by reflexivity.
  unfold canonical. rewrite Hname. clear Hname.
  case_bool_decide as Hv; [done|]. split; [|done].
  intros Hc. exfalso.
  destruct (standard_name_in _ _) as [name|] eqn:Hname.
  - injection Hc as ->. apply standard_name_in_table in Hname.
    cbn [tail rename_map fmap list_fmap fst] in Hname.
    repeat (apply elem_of_cons in Hname as [Hname|Hname]; [discriminate|]).
    inversion Hname.
  - subst c. apply Hv. apply (bool_decide_unpack _). by vm_compute.
Qed.

Lemma in_columns_renamed df :
  in_columns (LStr "nusp") (renamed df) = true
  <-> exists c, c ∈ columns df /\ normalized_col c ∈ nusp_variations.
Proof.
  unfold in_columns. rewrite bool_decide_eq_true. simpl. rewrite list_elem_of_fmap.
  split; intros (c & Hc & Hin); exists c; split; try done.
  - by apply canonical_nusp.
  - symmetry. by apply canonical_nusp.
Qed.

Lemma join_from_text k sep (texts : list string) :
  join_from k sep (LStr <$> texts) = Return (String.concat sep texts).
Proof.
  revert k; induction texts as [|s texts IH]; intros k; simpl; [done|].
  rewrite IH. simpl. by destruct texts.
Qed.

Lemma join_from_int k sep items :
  (exists z, LInt z ∈ items) ->
  exists n : nat, join_from k sep items
            = Raise (TypeError ("sequence item " +:+ pretty n
                                +:+ ": expected str instance, int found")).
Proof.
  revert k; induction items as [|c items IH]; intros k (z & Hz).
  - inversion Hz.
  - destruct c as [s|z']; simpl; [|by eexists].
    apply elem_of_cons in Hz as [Hz|Hz]; [discriminate|].
    destruct (IH (S k)) as (n & ->); [by eexists|]. by exists n.
Qed.

(** ** What the normalizer returns and raises *)

Lemma find_and_rename_found df :
  (exists c, c ∈ columns df /\ normalized_col c ∈ nusp_variations) ->
  find_and_rename_nusp_column df = Return (renamed df).
Proof.
  intros H%in_columns_renamed. rewrite find_and_rename_eq. by rewrite H.
Qed.

Lemma find_and_rename_Return df df' :
  find_and_rename_nusp_column df = Return df' ->
  df' = renamed df /\ in_columns (LStr "nusp") df' = true.
Proof.
  rewrite find_and_rename_eq.
  destruct (in_columns (LStr "nusp") (renamed df)) eqn:Hin; simpl.
  - by intros [= <-].
  - destruct (join _ _); discriminate.
Qed.

(** With text labels only, the missing column is reported with the
    labels of the table. *)
Lemma find_and_rename_missing_text (texts : list string) rws :
  (forall s, s ∈ texts -> normalized_col (LStr s) ∉ nusp_variations) ->
  exists available,
    find_and_rename_nusp_column (Frame (LStr <$> texts) rws)
    = Raise (ValueError (missing_nusp_message (String.concat ", " available)))
    /\ LStr <$> available = canonical <$> (LStr <$> texts).
Proof.
  intros Hno.
  assert (Htext : exists available, canonical <$> (LStr <$> texts) = LStr <$> available).
  { clear Hno. induction texts as [|s texts (available & IH)]; [by exists []|].
    rewrite !fmap_cons, IH. unfold canonical.
    destruct (standard_name (LStr s)) as [name|];
      [exists (name :: available) | exists (s :: available)]; reflexivity. }
  destruct Htext as (available & Ha). exists available. split; [|done].
  rewrite find_and_rename_eq.
  destruct (in_columns (LStr "nusp") (renamed _)) eqn:Hin.
  - apply in_columns_renamed in Hin as (c & (s & -> & Hs)%list_elem_of_fmap & Hc).
    by destruct (Hno s Hs).
  - cbn [negb]. unfold join, renamed. cbn [columns]. rewrite Ha, join_from_text.
    reflexivity.
Qed.

(** With a numeric label left after the renaming, the report of the
    missing column is itself a [TypeError]. *)
Lemma find_and_rename_missing_numeric df z :
  (forall c, c ∈ columns df -> normalized_col c ∉ nusp_variations) ->
  LInt z ∈ columns (renamed df) ->
  exists n : nat, find_and_rename_nusp_column df
            = Raise (TypeError ("sequence item " +:+ pretty n
                                +:+ ": expected str instance, int found")).
Proof.
  intros Hno Hz. rewrite find_and_rename_eq.
  destruct (in_columns (LStr "nusp") (renamed df)) eqn:Hin.
  - apply in_columns_renamed in Hin as (c & Hc & Hv). by destruct (Hno c Hc).
  - simpl. destruct (join_from_int 0 ", " (canonical <$> columns df)) as (n & Hn);
      [by exists z|].
    exists n. unfold join. simpl in Hn. by rewrite Hn.
Qed.

(** C9: header normalization is idempotent.  A table returned by the
    normalizer is returned unchanged when the normalizer is applied to it
    again: every one of its column labels is the label the normalizer
    assigns to it. *)
Theorem header_normalization_idempotent df df' :
  find_and_rename_nusp_column df = Return df' ->
  find_and_rename_nusp_column df' = Return df'
  /\ canonical <$> columns df' = columns df'.
Proof.
  intros [-> Hin]%find_and_rename_Return. split.
  - rewrite find_and_rename_eq, renamed_idem, Hin. done.
  - change (columns (renamed (renamed df)) = columns (renamed df)).
    by rewrite renamed_idem.
Qed.

Lemma header_normalization_idempotent_witness :
  find_and_rename_nusp_column
    (Frame [LStr "nusp"; LStr "Nome completo"; LStr "problema"; LStr "Curso "] [])
  = Return (Frame [LStr "nusp"; LStr "Nome completo"; LStr "problema"; LStr "Curso "] []).
Proof.
  apply (header_normalization_idempotent
           (Frame [LStr " NUSP"; LStr "NOME COMPLETO"; LStr "Problema"; LStr "Curso "] [])).
  vm_compute. reflexivity.
Defined.

(** C5: a table none of whose labels normalises to the identifier and
    whose header holds a number.  The normalizer does not raise the
    [ValueError] that lists the available columns: building that list
    raises a [TypeError], which [run_app] shows as an unexpected error. *)
Theorem missing_identifier_numeric_header :
  (forall c, c ∈ columns planilha_2023 -> normalized_col c ∉ nusp_variations)
  /\ find_and_rename_nusp_column planilha_2023
     = Raise (TypeError "sequence item 0: expected str instance, int found")
  /\ run_app planilha_2023 requerimentos_ana_bruno "historico.xlsx" "pedidos.xlsx"
     = ([unexpected_error "sequence item 0: expected str instance, int found"], None).
Proof.
  split; [|split; by vm_compute].
  intros c Hc. cbn [planilha_2023 columns] in Hc.
  repeat (apply elem_of_cons in Hc as [->|Hc];
          [apply (bool_decide_unpack _); by vm_compute|]).
  inversion Hc.
Qed.

(** ** Schema Validator *)

Lemma missing_cols_spec required df col :
  col ∈ missing_cols required df <-> col ∈ required /\ LStr col ∉ columns df.
Proof. unfold missing_cols. rewrite list_elem_of_filter. tauto. Qed.

Lemma run_app_validation_error raw_c raw_r df_c df_r name_c name_r msg :
  find_and_rename_nusp_column raw_c = Return df_c ->
  find_and_rename_nusp_column raw_r = Return df_r ->
  validate_dataframes df_c df_r = Raise (ValueError msg) ->
  run_app raw_c raw_r name_c name_r = ([validation_error msg], None).
Proof.
  intros Hc Hr Hv. unfold run_app, process. rewrite Hc, Hr. simpl.
  rewrite Hv. reflexivity.
Qed.

(** C4: the validator computes the missing required columns of each
    table on its own; it returns when both lists are empty and otherwise
    raises one error whose message has, for each table with missing
    columns, a line listing exactly those columns; in [run_app] that
    error ends the processing with the validation message only: no
    cleaning warning is shown and nothing is joined. *)
Theorem schema_validation df_c df_r :
  let missing_c := missing_cols required_cols_consolidado df_c in
  let missing_r := missing_cols required_cols_requerimentos df_r in
  let report_c :=
    "Arquivo consolidado: colunas faltando - " +:+ String.concat ", " missing_c in
  let report_r :=
    "Arquivo requerimentos: colunas faltando - " +:+ String.concat ", " missing_r in
  (forall col, col ∈ missing_c <->
     col ∈ ["nusp"; "disciplina"; "Ano"; "Semestre"; "problema"; "parecer"]
     /\ LStr col ∉ columns df_c)
  /\ (forall col, col ∈ missing_r <->
        col ∈ ["nusp"; "Nome completo"; "problema"] /\ LStr col ∉ columns df_r)
  /\ validate_dataframes df_c df_r
     = match missing_c, missing_r with
       | [], [] => Return tt
       | _ :: _, [] => Raise (ValueError report_c)
       | [], _ :: _ => Raise (ValueError report_r)
       | _ :: _, _ :: _ => Raise (ValueError (report_c +:+ nl +:+ report_r))
       end
  /\ (forall raw_c raw_r name_c name_r msg,
        find_and_rename_nusp_column raw_c = Return df_c ->
        find_and_rename_nusp_column raw_r = Return df_r ->
        validate_dataframes df_c df_r = Raise (ValueError msg) ->
        run_app raw_c raw_r name_c name_r = ([validation_error msg], None)).
Proof.
  intros missing_c missing_r report_c report_r.
  split; [apply missing_cols_spec|]. split; [apply missing_cols_spec|]. split.
  - unfold validate_dataframes. fold missing_c missing_r. fold report_c report_r.
    destruct missing_c, missing_r; reflexivity.
  - intros. by eapply run_app_validation_error.
Qed.

Lemma schema_validation_witness :
  run_app historico_calculus requerimentos_sem_nome "historico.csv" "pedidos.csv"
  = ([validation_error "Arquivo requerimentos: colunas faltando - Nome completo"], None).
Proof.
  refine (proj2 (proj2 (proj2
    (schema_validation (renamed historico_calculus) (renamed requerimentos_sem_nome))))
    _ _ _ _ _ _ _ _); by vm_compute.
Defined.

(** ** The join *)

Lemma suffixed_not_nusp s t : s +:+ String "_" t <> "nusp".
Proof. destruct s as [|a [|b [|c [|d [|e s]]]]]; simpl; intros [=]. Qed.

Lemma with_suffix_nusp to_rename t c :
  LStr "nusp" ∉ to_rename ->
  with_suffix to_rename (String "_" t) c = LStr "nusp" <-> c = LStr "nusp".
Proof.
  intros Hk. unfold with_suffix. case_bool_decide as Hc; [|done]. split.
  - intros [= He]. by apply suffixed_not_nusp in He.
  - intros ->. done.
Qed.

Lemma merge_eq left right key i j :
  positions key (columns left) = [i] ->
  positions key (columns right) = [j] ->
  merge left right key
  = Return
      (let right_columns := delete j (columns right) in
       let to_rename := filter (fun c => c ∈ right_columns) (columns left) in
       Frame ((with_suffix to_rename "_x" <$> columns left)
                ++ (with_suffix to_rename "_y" <$> right_columns))
             (rows left ≫= matches i j (rows right))).
Proof. intros Hi Hj. unfold merge, locate. rewrite Hi, Hj. reflexivity. Qed.

Lemma merge_inv left right key joined :
  merge left right key = Return joined ->
  exists i j, positions key (columns left) = [i] /\
              positions key (columns right) = [j] /\
              rows joined = rows left ≫= matches i j (rows right).
Proof.
  unfold merge. destruct (locate key left) as [i|] eqn:Hi; [|done].
  destruct (locate key right) as [j|] eqn:Hj; [|done].
  simpl. intros [= <-]. exists i, j. by rewrite <- !locate_Return.
Qed.

(** The key column of the joined table is the key column of the left
    table. *)
Lemma merge_positions left right i j :
  positions (LStr "nusp") (columns left) = [i] ->
  positions (LStr "nusp") (columns right) = [j] ->
  forall joined, merge left right (LStr "nusp") = Return joined ->
  positions (LStr "nusp") (columns joined) = [i].
Proof.
  intros Hi Hj joined. rewrite (merge_eq _ _ _ i j Hi Hj). intros [= <-]. simpl.
  pose proof (positions_delete _ _ _ Hj) as Hdel.
  set (to_rename := filter _ (columns left)).
  assert (Hk : LStr "nusp" ∉ to_rename).
  { intros [Hin _]%list_elem_of_filter. done. }
  unfold positions. rewrite positions_from_app.
  rewrite positions_from_fmap by (intros; by apply with_suffix_nusp).
  fold (positions (LStr "nusp") (columns left)). rewrite Hi.
  rewrite positions_from_nil; [done|].
  intros (c & Hc & Hin)%list_elem_of_fmap.
  symmetry in Hc. apply with_suffix_nusp in Hc; [|done]. by subst c.
Qed.

Lemma matches_length i j right_rows l :
  length (matches i j right_rows l)
  = length (filter (fun r => at_pos j r = at_pos i l) right_rows).
Proof. unfold matches. apply length_fmap. Qed.

Lemma at_pos_app i l r : (i < length l)%nat -> at_pos i (l ++ r) = at_pos i l.
Proof. intros H. unfold at_pos. by rewrite lookup_app_l. Qed.

(** The identifiers of the joined rows are those of the left rows that
    some right row shares. *)
Lemma joined_keys i j left_rows right_rows k :
  (forall l, l ∈ left_rows -> (i < length l)%nat) ->
  k ∈ at_pos i <$> (left_rows ≫= matches i j right_rows)
  <-> (exists l, l ∈ left_rows /\ at_pos i l = k)
      /\ (exists r, r ∈ right_rows /\ at_pos j r = k).
Proof.
  intros Hlong. rewrite list_elem_of_fmap. split.
  - intros (x & -> & (l & Hx & Hl)%list_elem_of_bind).
    unfold matches in Hx.
    apply list_elem_of_fmap in Hx as (r & -> & [Heq Hr]%list_elem_of_filter).
    rewrite at_pos_app by auto. split; [by exists l | by exists r].
  - intros [(l & Hl & <-) (r & Hr & Heq)].
    exists (l ++ delete j r). split; [by rewrite at_pos_app by auto|].
    apply list_elem_of_bind. exists l. split; [|done].
    unfold matches. apply list_elem_of_fmap. exists r. split; [done|].
    by apply list_elem_of_filter.
Qed.

(** C7: the inner join on the identifier.  The joined rows are, for each
    row of the current table in order, one row per historical row with
    the same identifier: a current row contributes exactly as many joined
    rows as there are historical rows with its identifier. *)
Theorem join_cardinality left right joined :
  merge left right (LStr "nusp") = Return joined ->
  exists i j,
    positions (LStr "nusp") (columns left) = [i]
    /\ positions (LStr "nusp") (columns right) = [j]
    /\ rows joined = rows left ≫= matches i j (rows right)
    /\ (forall l, length (matches i j (rows right) l)
                  = length (filter (fun r => at_pos j r = at_pos i l) (rows right)))
    /\ (forall before l after, rows left = before ++ l :: after ->
          rows joined = (before ≫= matches i j (rows right))
                          ++ matches i j (rows right) l
                          ++ (after ≫= matches i j (rows right))).
Proof.
  intros (i & j & Hi & Hj & Hrows)%merge_inv. exists i, j.
  repeat split; try done.
  - intros l. apply matches_length.
  - intros before l after Hl. by rewrite Hrows, Hl, bind_app, bind_cons.
Qed.

Lemma join_cardinality_witness :
  exists joined,
    merge requerimento_ana historico_dois_cursos (LStr "nusp") = Return joined
    /\ length (rows joined) = 2%nat.
Proof.
  pose (joined :=
          Frame [LStr "nusp"; LStr "Nome completo"; LStr "disciplina_historico"]
                [[VInt 123; VStr "Ana"; VStr "Calculus"];
                 [VInt 123; VStr "Ana"; VStr "Physics"]]).
  assert (Hm : merge requerimento_ana historico_dois_cursos (LStr "nusp")
               = Return joined) by (by vm_compute).
  exists joined. split; [exact Hm|].
  destruct (join_cardinality _ _ _ Hm) as (i & j & Hi & Hj & Hrows & _).
  rewrite Hrows. injection Hi as <-. injection Hj as <-. reflexivity.
Defined.

(** ** The partition of the current identifiers *)

Lemma getitem_eq c df i :
  positions c (columns df) = [i] -> getitem c df = Return (series i df).
Proof. intros Hi. unfold getitem, locate. by rewrite Hi. Qed.

Lemma reconcile_eq req cons i j :
  positions (LStr "nusp") (columns req) = [i] ->
  positions (LStr "nusp") (columns cons) = [j] ->
  exists joined,
    merge req cons (LStr "nusp") = Return joined
    /\ positions (LStr "nusp") (columns joined) = [i]
    /\ rows joined = rows req ≫= matches i j (rows cons)
    /\ reconcile req cons
       = Return (Reconciliation joined (list_to_set (series i joined))
                   (Frame (columns req)
                      (filter (fun r => at_pos i r
                                        ∉ (list_to_set (series i joined) : gset cell))
                              (rows req)))).
Proof.
  intros Hi Hj. pose proof (merge_eq req cons _ i j Hi Hj) as Hm. cbv zeta in Hm.
  set (joined := Frame _ _) in Hm. exists joined.
  pose proof (merge_positions req cons i j Hi Hj joined Hm) as Hpos.
  do 3 (split; [done|]).
  unfold reconcile. rewrite Hm. cbn [mbind result_bind].
  rewrite (getitem_eq _ _ i Hpos). cbn [mbind result_bind].
  unfold not_isin, locate. rewrite Hi. reflexivity.
Qed.

(** The partition, for cleaned tables. *)
Lemma reconcile_cleaned req cons :
  cleaned req -> cleaned cons ->
  exists rec novos atuais historicos,
    reconcile req cons = Return rec
    /\ nusp_set (df_novos rec) = Return novos
    /\ nusp_set req = Return atuais
    /\ nusp_set cons = Return historicos
    /\ nusps_com_historico rec ## novos
    /\ nusps_com_historico rec ∪ novos = atuais
    /\ nusps_com_historico rec = atuais ∩ historicos.
Proof.
  intros Hreq Hcons.
  destruct Hreq as (i & Hi & Hreq_int). destruct Hcons as (j & Hj & Hcons_int).
  destruct (reconcile_eq req cons i j Hi Hj) as (joined & Hm & Hpos & Hrows & Hrec).
  assert (Hlong : forall l, l ∈ rows req -> (i < length l)%nat).
  { intros l (z & Hz)%Hreq_int. by apply lookup_lt_Some in Hz. }
  pose proof (fun k => joined_keys i j (rows req) (rows cons) k Hlong) as Hkeys.
  eexists _, _, _, _. split; [exact Hrec|]. simpl.
  unfold nusp_set. rewrite (getitem_eq _ _ i Hi), (getitem_eq _ _ j Hj).
  rewrite (getitem_eq _ (Frame _ _) i Hi). simpl.
  do 3 (split; [reflexivity|]).
  unfold series in *. simpl. rewrite Hrows.
  split; [|split].
  - intros k Hwith Hnew. rewrite elem_of_list_to_set in Hnew.
    apply list_elem_of_fmap in Hnew as (l & -> & [Hno _]%list_elem_of_filter).
    by apply Hno.
  - apply set_eq. intros k.
    rewrite elem_of_union, !elem_of_list_to_set, Hkeys.
    rewrite !list_elem_of_fmap. split.
    + intros [[(l & Hl & <-) _]|(l & -> & [_ Hl]%list_elem_of_filter)]; eauto.
    + intros (l & -> & Hl).
      destruct (decide (at_pos i l ∈ (list_to_set
         (at_pos i <$> (rows req ≫= matches i j (rows cons))) : gset cell)))
        as [Hin|Hnin].
      * left. rewrite elem_of_list_to_set in Hin. by apply Hkeys.
      * right. exists l. split; [done|]. by apply list_elem_of_filter.
  - apply set_eq. intros k.
    rewrite elem_of_intersection, !elem_of_list_to_set, Hkeys.
    rewrite !list_elem_of_fmap. split.
    + intros [(l & Hl & <-) (r & Hr & Heq)]. split; [by exists l | by exists r].
    + intros [(l & -> & Hl) (r & Heq & Hr)]. split; [by exists l | by exists r].
Qed.

(** C1: for cleaned tables the reconciler returns; the identifiers with
    history and the identifiers of the new requests are disjoint and
    together are exactly the identifiers of the current table; an
    identifier has history exactly when it is also an identifier of the
    historical table. *)
Theorem reconciler_partition req cons :
  cleaned req -> cleaned cons ->
  exists rec novos atuais historicos,
    reconcile req cons = Return rec
    /\ nusp_set (df_novos rec) = Return novos
    /\ nusp_set req = Return atuais
    /\ nusp_set cons = Return historicos
    /\ nusps_com_historico rec ## novos
    /\ nusps_com_historico rec ∪ novos = atuais
    /\ nusps_com_historico rec = atuais ∩ historicos.
Proof. apply reconcile_cleaned. Qed.

(** A concrete table is cleaned when each of its rows shows an integer
    at the position of [nusp]. *)
Ltac cleaned_by_rows :=
  eexists; split;
  [ reflexivity
  | let r := fresh "r" in
    let Hr := fresh "Hr" in
    intros r Hr; simpl in Hr;
    repeat (apply elem_of_cons in Hr as [->|Hr]; [by eexists|]);
    inversion Hr ].

Lemma reconciler_partition_witness :
  exists rec novos atuais historicos,
    reconcile requerimentos_limpos historico_limpo = Return rec
    /\ nusp_set (df_novos rec) = Return novos
    /\ nusp_set requerimentos_limpos = Return atuais
    /\ nusp_set historico_limpo = Return historicos
    /\ nusps_com_historico rec ## novos
    /\ nusps_com_historico rec ∪ novos = atuais
    /\ nusps_com_historico rec = atuais ∩ historicos.
Proof.
  apply (reconciler_partition requerimentos_limpos historico_limpo); cleaned_by_rows.
Defined.

(** ** Aggregator *)

Lemma mask_sum_cons b mask :
  mask_sum (b :: mask) = ((if b then 1 else 0) + mask_sum mask)%nat.
Proof. unfold mask_sum. rewrite filter_cons. by destruct b. Qed.

(** C3: a decision text whose lower-case form contains "aprovado" is
    counted as approved, unless it also contains "indeferido" or
    "negado": then it is counted as denied and not as approved. *)
Theorem denial_takes_precedence (text : string) (pareceres : list (option string)) :
  contains "aprovado" (lower text) = true ->
  let parecer := str_lower (VStr text) in
  if contains "indeferido" (lower text) || contains "negado" (lower text)
  then aprovado parecer = false /\ negado parecer = true
       /\ mask_sum (aprovado <$> parecer :: pareceres)
          = mask_sum (aprovado <$> pareceres)
       /\ mask_sum (negado <$> parecer :: pareceres)
          = S (mask_sum (negado <$> pareceres))
  else aprovado parecer = true /\ negado parecer = false
       /\ mask_sum (aprovado <$> parecer :: pareceres)
          = S (mask_sum (aprovado <$> pareceres))
       /\ mask_sum (negado <$> parecer :: pareceres)
          = mask_sum (negado <$> pareceres).
Proof.
  intros Hap parecer. rewrite !fmap_cons, !mask_sum_cons.
  unfold aprovado, negado, parecer. simpl. rewrite Hap. simpl.
  rewrite !orb_false_r.
  destruct (contains "indeferido" (lower text) || contains "negado" (lower text));
    simpl; auto.
Qed.

Lemma denial_takes_precedence_witness :
  (aprovado (str_lower (VStr "Aprovado pela CG")) = true
   /\ negado (str_lower (VStr "Aprovado pela CG")) = false)
  /\ (aprovado (str_lower (VStr "Não aprovado - INDEFERIDO")) = false
      /\ negado (str_lower (VStr "Não aprovado - INDEFERIDO")) = true).
Proof.
  split.
  - pose proof (denial_takes_precedence "Aprovado pela CG" [] eq_refl) as H.
    vm_compute contains in H. simpl in H. tauto.
  - pose proof (denial_takes_precedence "Não aprovado - INDEFERIDO" [] eq_refl) as H.
    simpl in H. tauto.
Defined.

Lemma getitem_exn c df e :
  getitem c df = Raise e -> (exists m, e = KeyError m) \/ (exists m, e = ValueError m).
Proof.
  unfold getitem, locate. destruct (positions c (columns df)) as [|i [|i' l]];
    simpl; intros [= <-]; eauto.
Qed.

Lemma taxa_aprovacao_Return aprovados negados :
  exists taxa, taxa_aprovacao aprovados negados = Return taxa.
Proof.
  unfold taxa_aprovacao, truediv. case_bool_decide; [|by eexists].
  destruct (Z.eqb_spec (Z.of_nat (aprovados + negados)) 0); [lia | by eexists].
Qed.

Lemma percentual_historico_Return com_historico total :
  exists percentual, percentual_historico com_historico total = Return percentual.
Proof.
  unfold percentual_historico, truediv. case_bool_decide; [|by eexists].
  destruct (Z.eqb_spec (Z.of_nat total) 0); [lia | by eexists].
Qed.

Lemma display_overview_no_division_fault df_r joined novos msg :
  display_overview df_r joined novos <> Raise (ZeroDivisionError msg).
Proof.
  unfold display_overview.
  destruct (getitem (LStr "nusp") joined) as [nusp_hist|e] eqn:H1;
    [|intros [= ->]; by destruct (getitem_exn _ _ _ H1) as [[m ?]|[m ?]]].
  destruct (getitem (LStr "nusp") df_r) as [nusp_req|e] eqn:H2;
    [|intros [= ->]; by destruct (getitem_exn _ _ _ H2) as [[m ?]|[m ?]]].
  cbn [mbind result_bind].
  destruct (percentual_historico_Return (nunique nusp_hist) (nunique nusp_req))
    as (percentual & ->).
  cbn [mbind result_bind].
  destruct (getitem (LStr "nusp") novos) as [nusp_novos|e] eqn:H3;
    [|intros [= ->]; by destruct (getitem_exn _ _ _ H3) as [[m ?]|[m ?]]].
  cbn [mbind result_bind]. case_bool_decide; [|done].
  destruct (getitem (LStr "parecer_historico") joined) as [parecer|e] eqn:H4;
    [|intros [= ->]; by destruct (getitem_exn _ _ _ H4) as [[m ?]|[m ?]]].
  cbn [mbind result_bind].
  destruct (taxa_aprovacao_Return (mask_sum (aprovado <$> (str_lower <$> parecer)))
              (mask_sum (negado <$> (str_lower <$> parecer)))) as (taxa & ->).
  done.
Qed.

(** C6: with a zero denominator both rates are 0; no counts make either
    computation raise, and [display_overview] never ends in a division
    fault. *)
Theorem rates_without_division_fault :
  (forall aprovados negados,
     (aprovados + negados)%nat = 0%nat ->
     taxa_aprovacao aprovados negados = Return 0%Q)
  /\ (forall com_historico total,
        total = 0%nat -> percentual_historico com_historico total = Return 0%Q)
  /\ (forall aprovados negados,
        exists taxa, taxa_aprovacao aprovados negados = Return taxa)
  /\ (forall com_historico total,
        exists percentual, percentual_historico com_historico total = Return percentual)
  /\ (forall df_r joined novos msg,
        display_overview df_r joined novos <> Raise (ZeroDivisionError msg)).
Proof.
  split; [intros aprovados negados Hzero; unfold taxa_aprovacao; by rewrite Hzero|].
  split; [by intros com_historico total ->|].
  split; [apply taxa_aprovacao_Return|].
  split; [apply percentual_historico_Return | apply display_overview_no_division_fault].
Qed.

Lemma rates_without_division_fault_witness :
  taxa_aprovacao 0 0 = Return 0%Q /\ percentual_historico 3 0 = Return 0%Q.
Proof.
  destruct rates_without_division_fault as (Htaxa & Hpercentual & _).
  split; [apply Htaxa | apply Hpercentual]; reflexivity.
Defined.

(** ** The processing block *)

Lemma M_bind_inv {A B} (m : M A) (k : A -> M B) evs b :
  m ≫= k = (evs, Return b) ->
  exists evs1 a evs2,
    m = (evs1, Return a) /\ k a = (evs2, Return b) /\ evs = evs1 ++ evs2.
Proof.
  destruct m as [evs1 [a|e]]; unfold mbind, M_bind; [|done].
  destruct (k a) as [evs2 r] eqn:Hk. intros [= <- ->]. by exists evs1, a, evs2.
Qed.

Lemma M_bind_lift_inv {A B} (r : result A) (k : A -> M B) evs b :
  lift r ≫= k = (evs, Return b) -> exists a, r = Return a /\ k a = (evs, Return b).
Proof.
  intros (evs1 & a & evs2 & [= <- ->] & Hk & ->)%M_bind_inv. by exists a.
Qed.

(** A successful run went through every stage. *)
Lemma process_inv raw_c raw_r name_c name_r evs p :
  process raw_c raw_r name_c name_r = (evs, Return p) ->
  exists df_c df_r clean_c clean_r evs_c evs_r,
    find_and_rename_nusp_column raw_c = Return df_c
    /\ find_and_rename_nusp_column raw_r = Return df_r
    /\ validate_dataframes df_c df_r = Return tt
    /\ preprocess_data
         (if in_columns (LStr "Nome completo") df_c
          then drop_column (LStr "Nome completo") df_c else df_c) name_c
       = (evs_c, Return clean_c)
    /\ preprocess_data df_r name_r = (evs_r, Return clean_r)
    /\ evs = evs_c ++ evs_r
    /\ df_consolidado p = rename cols_to_rename_hist clean_c
    /\ df_requerimentos p = rename (req_rename_map clean_r) clean_r
    /\ reconcile (df_requerimentos p) (df_consolidado p) = Return (reconciled p).
Proof.
  unfold process.
  intros (df_c & Hc & H)%M_bind_lift_inv.
  apply M_bind_lift_inv in H as (df_r & Hr & H).
  apply M_bind_lift_inv in H as ([] & Hv & H).
  apply M_bind_inv in H as (evs_c & clean_c & evs' & Hpc & H & ->).
  apply M_bind_inv in H as (evs_r & clean_r & evs'' & Hpr & H & ->).
  apply M_bind_lift_inv in H as (rec & Hrec & H).
  injection H as <- <-.
  exists df_c, df_r, clean_c, clean_r, evs_c, evs_r. simpl.
  rewrite app_nil_r. done.
Qed.

(** Renaming columns other than [nusp], to labels other than [nusp],
    keeps a table cleaned. *)
Lemma rename_cleaned (mapper : gmap label label) df :
  mapper !! LStr "nusp" = None ->
  map_Forall (fun _ new => new <> LStr "nusp") mapper ->
  cleaned df -> cleaned (rename mapper df).
Proof.
  intros Hkey Hnew (i & Hi & Hint). exists i. split; [|done].
  unfold rename. cbn [columns]. unfold positions.
  rewrite positions_from_fmap; [done|].
  intros c _. destruct (mapper !! c) as [new|] eqn:Hc; simpl.
  - split; [intros ->; by apply Hnew in Hc | intros ->; congruence].
  - done.
Qed.

Lemma cols_to_rename_hist_cleaned df :
  cleaned df -> cleaned (rename cols_to_rename_hist df).
Proof.
  apply rename_cleaned; [by vm_compute|].
  apply (bool_decide_unpack _). by vm_compute.
Qed.

Lemma req_rename_map_cleaned df df' :
  cleaned df -> cleaned (rename (req_rename_map df') df).
Proof.
  assert (Hinv : forall cols (m : gmap label label),
            Forall (fun c => c <> "nusp" /\ c +:+ "_atual" <> "nusp") cols ->
            m !! LStr "nusp" = None /\ map_Forall (fun _ new => new <> LStr "nusp") m ->
            let m' := foldl (fun m c =>
                        if in_columns (LStr c) df'
                        then <[LStr c := LStr (c +:+ "_atual")]> m else m) m cols in
            m' !! LStr "nusp" = None /\ map_Forall (fun _ new => new <> LStr "nusp") m').
  { induction cols as [|c cols IH]; intros m Hcols Hm; [done|].
    apply Forall_cons in Hcols as [[Hc Hc'] Hcols]. simpl. apply IH; [done|].
    destruct (in_columns (LStr c) df'); [|done]. destruct Hm as [Hkey Hnew]. split.
    - rewrite lookup_insert_ne; [done | congruence].
    - apply map_Forall_insert_2; [congruence | done]. }
  destruct (Hinv optional_cols {[ LStr "problema" := LStr "problema_atual" ]})
    as [Hkey Hnew].
  - apply (bool_decide_unpack _). by vm_compute.
  - split; [by vm_compute|]. apply (bool_decide_unpack _). by vm_compute.
  - by apply rename_cleaned.
Qed.

(** The tables that [run_app] joins are cleaned tables. *)
Lemma process_joins_cleaned raw_c raw_r name_c name_r evs p :
  process raw_c raw_r name_c name_r = (evs, Return p) ->
  cleaned (df_requerimentos p) /\ cleaned (df_consolidado p)
  /\ reconcile (df_requerimentos p) (df_consolidado p) = Return (reconciled p).
Proof.
  intros (df_c & df_r & clean_c & clean_r & evs_c & evs_r & _ & _ & _
          & Hc & Hr & _ & -> & -> & Hrec)%process_inv.
  apply preprocess_data_cleaned in Hc, Hr.
  split; [by apply req_rename_map_cleaned|].
  split; [by apply cols_to_rename_hist_cleaned | done].
Qed.

(** The partition holds for the tables that [run_app] joins. *)
Lemma process_partition raw_c raw_r name_c name_r evs p :
  process raw_c raw_r name_c name_r = (evs, Return p) ->
  exists novos atuais historicos,
    nusp_set (df_novos (reconciled p)) = Return novos
    /\ nusp_set (df_requerimentos p) = Return atuais
    /\ nusp_set (df_consolidado p) = Return historicos
    /\ nusps_com_historico (reconciled p) ## novos
    /\ nusps_com_historico (reconciled p) ∪ novos = atuais
    /\ nusps_com_historico (reconciled p) = atuais ∩ historicos.
Proof.
  intros (Hreq & Hcons & Hrec)%process_joins_cleaned.
  destruct (reconcile_cleaned _ _ Hreq Hcons)
    as (rec & novos & atuais & historicos & Hrec' & H).
  rewrite Hrec in Hrec'. injection Hrec' as <-. by exists novos, atuais, historicos.
Qed.

(** ** Record Cleaner *)

Lemma length_filter_isna i (rws : list (list cell)) :
  (length (filter (fun r => isna (coerced i r) = false) rws)
   + length (filter (fun r => isna (coerced i r) = true) rws))%nat
  = length rws.
Proof.
  induction rws as [|r rws IH]; [done|]. rewrite !filter_cons.
  destruct (isna (coerced i r)); simpl; lia.
Qed.

(** C2, as the code has it: when the cleaner returns, the rows left are
    the rows whose identifier was coerced to a number, in order, each
    with that number cast to an integer, which may be negative; the rows
    whose identifier was coerced to a missing value are gone.  The tables
    that [run_app] joins are outputs of the cleaner, up to the renaming
    of other columns. *)
Theorem cleaner_keeps_integers :
  (forall df name evs df',
     preprocess_data df name = (evs, Return df') ->
     exists i, positions (LStr "nusp") (columns df) = [i]
       /\ columns df' = columns df
       /\ rows df' = clean_row i <$> filter (fun r => isna (coerced i r) = false) (rows df)
       /\ forall r', r' ∈ rows df' -> exists z, r' !! i = Some (VInt z))
  /\ (forall raw_c raw_r name_c name_r evs p,
        process raw_c raw_r name_c name_r = (evs, Return p) ->
        cleaned (df_requerimentos p) /\ cleaned (df_consolidado p)
        /\ reconcile (df_requerimentos p) (df_consolidado p) = Return (reconciled p)).
Proof.
  split; [|apply process_joins_cleaned].
  intros df name evs df' H.
  destruct (preprocess_data_cleaned _ _ _ _ H) as (i' & Hi' & Hint).
  apply preprocess_data_inv in H as (i & Hi & _ & _ & ->).
  cbn [columns rows] in *. rewrite Hi in Hi'. injection Hi' as <-.
  exists i. done.
Qed.

Lemma cleaner_keeps_integers_witness :
  exists i, positions (LStr "nusp") (columns requerimentos_abc) = [i]
    /\ forall r', r' ∈ [[VInt 789; VStr "Davi"; VStr "CH"]] ->
                  exists z, r' !! i = Some (VInt z).
Proof.
  destruct (proj1 cleaner_keeps_integers requerimentos_abc "pedidos.csv"
              [StWarning (removed_warning 1 "pedidos.csv")]
              (Frame (columns requerimentos_abc) [[VInt 789; VStr "Davi"; VStr "CH"]]))
    as (i & Hi & _ & _ & Hint); [by vm_compute|].
  exists i. split; [exact Hi | exact Hint].
Defined.

(** C2, as stated, fails: a negative identifier stays in the cleaned
    table. *)
Lemma cleaner_keeps_negative_identifier :
  exists df' r z,
    preprocess_data requerimentos_negativo "pedidos.csv" = ([], Return df')
    /\ r ∈ rows df' /\ r !! 0%nat = Some (VInt z) /\ z < 0.
Proof.
  exists (Frame (columns requerimentos_negativo) [[VInt (-5); VStr "Ana"; VStr "QR"]]),
    [VInt (-5); VStr "Ana"; VStr "QR"], (-5).
  split; [by vm_compute|]. split; [by left|]. split; [reflexivity | lia].
Qed.

(** C8: the cleaner is idempotent.  Applied to a table it has returned,
    it returns the same table and shows no warning: no row is removed and
    no identifier changes. *)
Theorem cleaner_idempotent df name name' evs df' :
  preprocess_data df name = (evs, Return df') ->
  preprocess_data df' name' = ([], Return df').
Proof.
  intros H%preprocess_data_cleaned. by apply preprocess_data_cleaned_id.
Qed.

Lemma cleaner_idempotent_witness :
  preprocess_data
    (Frame (columns requerimentos_abc) [[VInt 789; VStr "Davi"; VStr "CH"]]) "again.csv"
  = ([], Return (Frame (columns requerimentos_abc) [[VInt 789; VStr "Davi"; VStr "CH"]])).
Proof.
  apply (cleaner_idempotent requerimentos_abc "pedidos.csv" "again.csv"
           [StWarning (removed_warning 1 "pedidos.csv")]).
  by vm_compute.
Defined.



(** ** The scenarios, run *)

(** Ana has history, Bruno is new; one approved decision out of one. *)
Example scenario_ana_bruno :
  exists p,
    run_app historico_calculus requerimentos_ana_bruno "historico.csv" "pedidos.csv"
    = ([], Some p)
    /\ nusps_com_historico (reconciled p) = {[ VInt 123 ]}
    /\ rows (df_novos (reconciled p)) = [[VInt 456; VStr "Bruno"; VStr "CH"]]
    /\ display_overview (df_requerimentos p) (alunos_com_historico (reconciled p))
         (df_novos (reconciled p))
       = Return (Overview 2 1 2 (100 # 2) 1 1 0 (Some 100%Q)).
Proof. eexists. split; [by vm_compute|]. repeat split; by vm_compute. Qed.

(** One row is removed, with one warning that names the file. *)
Example scenario_abc :
  preprocess_data requerimentos_abc "pedidos.csv"
  = ([StWarning "⚠️ Removidos 1 registros com NUSP inválido do arquivo 'pedidos.csv'"],
     Return (Frame (columns requerimentos_abc) [[VInt 789; VStr "Davi"; VStr "CH"]])).
Proof. by vm_compute. Qed.

(* ================================================================= *)
(** * Further properties of the cleaner *)

Lemma mapM_astype_int_inf vs :
  Forall (fun v => isna v = false /\ forall s, v <> VStr s) vs ->
  Exists (fun v => is_inf v = true) vs ->
  mapM astype_int vs
  = Raise (ValueError "Cannot convert non-finite values (NA or inf) to integer").
Proof.
  induction 1 as [|v vs [Hna Htext] _ IH]; intros Hinf; [by inversion Hinf|].
  destruct v as [|z|q|b|s]; try done; simpl.
  - rewrite IH; [done|]. by apply Exists_cons in Hinf as [|].
  - rewrite IH; [done|]. by apply Exists_cons in Hinf as [|].
  - by destruct (Htext s).
Qed.

(** X1: how the cleaner ends, by the number of columns labelled [nusp] and
    the presence of an infinite identifier, for identifiers within the
    exact range.  Without such a column it ends in [KeyError], with
    several in [TypeError], in both cases before any warning.  With one,
    the warning about removed rows is shown before the cast, hence also
    when the cast fails, which it does with a [ValueError] when an
    identifier is infinite; otherwise the rows kept are returned, each
    with its identifier cast to an integer. *)
Theorem cleaner_outcome df name :
  exact_identifiers df = true ->
  match positions (LStr "nusp") (columns df) with
  | [] => preprocess_data df name = ([], Raise (KeyError "nusp"))
  | [i] =>
      let removed := filter (fun r => isna (coerced i r) = true) (rows df) in
      let kept := filter (fun r => isna (coerced i r) = false) (rows df) in
      exists msg,
        preprocess_data df name
        = (removal_events (length removed) name,
           if existsb (fun r => is_inf (coerced i r)) (rows df)
           then Raise (ValueError msg)
           else Return (Frame (columns df) (clean_row i <$> kept)))
  | _ :: _ :: _ => exists msg, preprocess_data df name = ([], Raise (TypeError msg))
  end.
Proof.
  intros _.
  destruct (positions (LStr "nusp") (columns df)) as [|i [|i' l]] eqn:Hi.
  - unfold preprocess_data. by rewrite Hi.
  - cbv zeta. eexists. destruct (existsb _ _) eqn:Hinf.
    + rewrite (preprocess_data_eq df name i Hi). cbv zeta.
      rewrite mapM_astype_int_inf; [done| |].
      * apply Forall_fmap, Forall_forall. intros r [Hna _]%list_elem_of_filter.
        split; [done | apply to_numeric_not_text].
      * apply existsb_exists in Hinf as (r & Hr & Hinf).
        apply Exists_fmap, Exists_exists. exists r. split; [|done].
        apply list_elem_of_filter.
        split; [by destruct (coerced i r) | by apply list_elem_of_In].
    + apply preprocess_data_Return; [done|]. intros r b Hr Hb.
      assert (existsb (fun r => is_inf (coerced i r)) (rows df) = true); [|congruence].
      apply existsb_exists. exists r. split; [by apply list_elem_of_In | by rewrite Hb].
  - eexists. unfold preprocess_data. by rewrite Hi.
Qed.

Lemma cleaner_outcome_witness :
  exists msg,
    preprocess_data requerimentos_abc "pedidos.csv"
    = (removal_events 1 "pedidos.csv",
       if false then Raise (ValueError msg)
       else Return (Frame (columns requerimentos_abc)
                      [[VInt 789; VStr "Davi"; VStr "CH"]])).
Proof.
  apply (cleaner_outcome requerimentos_abc "pedidos.csv"). by vm_compute.
Defined.

(** ** Reading numbers written as text *)

Lemma digit_not_space c : is_digit c = true -> is_c_space c = false.
Proof.
  unfold is_digit, is_c_space, in_range.
  destruct (N.leb_spec 48 (code c)), (N.leb_spec (code c) 57); try done. intros _.
  destruct (N.leb_spec 9 (code c)), (N.leb_spec (code c) 13), (N.eqb_spec (code c) 32);
    simpl; try done; lia.
Qed.

Lemma scan_sign_digit c p : is_digit c = true -> scan_sign (c :: p) = (false, c :: p).
Proof. destruct c as [[] [] [] [] [] [] [] []]; by vm_compute. Qed.

Lemma pretty_N_char_digit m :
  (m < 10)%N ->
  is_digit (pretty_N_char m) = true /\ digit_value (pretty_N_char m) = Z.of_N m.
Proof.
  intros Hm.
  assert (m = 0 \/ m = 1 \/ m = 2 \/ m = 3 \/ m = 4 \/ m = 5 \/ m = 6 \/ m = 7
          \/ m = 8 \/ m = 9)%N as Hcases by lia.
  repeat (destruct Hcases as [->|Hcases]; [by vm_compute|]). subst. by vm_compute.
Qed.

Lemma scan_digits_app acc n ds rest :
  Forall (fun c => is_digit c = true) ds ->
  scan_digits acc n (ds ++ rest)
  = scan_digits (digits_onto acc ds) (n + length ds) rest.
Proof.
  intros Hds. revert acc n. induction Hds as [|c ds Hc _ IH]; intros acc n; simpl.
  - by rewrite Nat.add_0_r.
  - rewrite Hc, IH. f_equal. lia.
Qed.

(** The text of a natural number is its decimal digits. *)
Lemma pretty_N_go_digits x s :
  exists ds,
    list_ascii_of_string (pretty_N_go x s) = ds ++ list_ascii_of_string s
    /\ Forall (fun c => is_digit c = true) ds
    /\ ((0 < x)%N -> ds <> [])
    /\ forall acc, digits_onto acc ds = acc * 10 ^ Z.of_nat (length ds) + Z.of_N x.
Proof.
  revert s. induction (N.lt_wf_0 x) as [x _ IH]; intros s.
  assert (x = 0 \/ 0 < x)%N as [->|Hx] by lia.
  - exists []. rewrite pretty_N_go_0. split; [done|]. split; [constructor|].
    split; [lia|]. intros acc. simpl. lia.
  - rewrite pretty_N_go_step by done.
    destruct (IH (x `div` 10)%N (N.div_lt x 10 Hx eq_refl)
                 (String (pretty_N_char (x `mod` 10)) s)) as (ds & Heq & Hds & _ & Hval).
    destruct (pretty_N_char_digit (x `mod` 10)%N) as [Hdig Hdv];
      [by apply N.mod_lt|].
    exists (ds ++ [pretty_N_char (x `mod` 10)]). split; [|split; [|split]].
    + rewrite Heq. simpl. by rewrite <- app_assoc.
    + apply Forall_app. split; [done | by constructor].
    + intros _ Habs. by destruct ds.
    + intros acc. unfold digits_onto in *. rewrite foldl_app, Hval. simpl.
      rewrite Hdv, length_app. simpl.
      replace (Z.of_nat (length ds + 1)) with (Z.succ (Z.of_nat (length ds))) by lia.
      rewrite Z.pow_succ_r by lia.
      pose proof (N.div_mod x 10 ltac:(done)) as Hdm.
      assert (Z.of_N x = 10 * Z.of_N (x `div` 10) + Z.of_N (x `mod` 10)) by lia.
      lia.
Qed.

Lemma xstrtod_digits negative ds :
  Forall (fun c => is_digit c = true) ds -> ds <> [] ->
  xstrtod ((if negative : bool then ["-"%char] else []) ++ ds)
  = Some (VInt (if negative then - digits_onto 0 ds else digits_onto 0 ds)).
Proof.
  intros Hds Hne. destruct ds as [|c ds]; [done|].
  pose proof (Forall_inv Hds) as Hc.
  unfold xstrtod.
  assert (Hsign : scan_sign (skip_spaces ((if negative then ["-"%char] else []) ++ c :: ds))
                  = (negative, c :: ds)).
  { destruct negative; simpl.
    - reflexivity.
    - rewrite (digit_not_space c Hc). by apply scan_sign_digit. }
  rewrite Hsign.
  rewrite <- (app_nil_r (c :: ds)), scan_digits_app by done.
  cbn [scan_digits scan_fraction scan_exponent skip_spaces].
  cbn [length Nat.add Nat.eqb orb]. by rewrite app_nil_r.
Qed.

Lemma to_numeric_pretty (z : Z) : to_numeric (VStr (pretty z)) = VInt z.
Proof.
  cbn [to_numeric]. unfold to_numeric_text.
  assert (Hx : xstrtod (list_ascii_of_string (pretty z)) = Some (VInt z)); [|by rewrite Hx].
  destruct z as [|p|p]; [by vm_compute| |].
  - unfold pretty, pretty_Z, pretty, pretty_positive, pretty, pretty_N.
    rewrite decide_False by done.
    destruct (pretty_N_go_digits (N.pos p) "") as (ds & Heq & Hds & Hne & Hval).
    rewrite Heq, app_nil_r.
    pose proof (xstrtod_digits false ds Hds (Hne ltac:(done))) as Hread.
    cbn [app] in Hread. rewrite Hread, Hval.
    replace (0 * 10 ^ Z.of_nat (length ds) + Z.of_N (N.pos p)) with (Z.pos p) by lia.
    done.
  - unfold pretty, pretty_Z, pretty, pretty_positive, pretty, pretty_N.
    rewrite decide_False by done.
    destruct (pretty_N_go_digits (N.pos p) "") as (ds & Heq & Hds & Hne & Hval).
    change (list_ascii_of_string ("-" +:+ pretty_N_go (N.pos p) ""))
      with ("-"%char :: list_ascii_of_string (pretty_N_go (N.pos p) "")).
    rewrite Heq, app_nil_r.
    pose proof (xstrtod_digits true ds Hds (Hne ltac:(done))) as Hread.
    cbn [app] in Hread. rewrite Hread, Hval.
    replace (0 * 10 ^ Z.of_nat (length ds) + Z.of_N (N.pos p)) with (Z.pos p) by lia.
    done.
Qed.

(** ** Texts within the exact range *)

Lemma digit_not_nul c : is_digit c = true -> negb (code c =? 0)%N = true.
Proof. destruct c as [[] [] [] [] [] [] [] []]; by vm_compute. Qed.

Lemma digit_not_exponent_mark c : is_digit c = true -> negb (is_exponent_mark c) = true.
Proof. destruct c as [[] [] [] [] [] [] [] []]; by vm_compute. Qed.

Lemma forallb_digits (f : ascii -> bool) ds :
  (forall c, is_digit c = true -> f c = true) ->
  Forall (fun c => is_digit c = true) ds -> forallb f ds = true.
Proof.
  intros Hf. induction 1 as [|c ds Hc _ IH]; [done|]. simpl. by rewrite Hf, IH.
Qed.

Lemma filter_digits ds :
  Forall (fun c => is_digit c = true) ds -> List.filter is_digit ds = ds.
Proof. induction 1 as [|c ds Hc _ IH]; [done|]. simpl. by rewrite Hc, IH. Qed.

(** A natural number below [10 ^ n] is written with at most [n]
    digits. *)
Lemma pretty_N_go_length x s n :
  (x < 10 ^ N.of_nat n)%N ->
  exists ds,
    list_ascii_of_string (pretty_N_go x s) = ds ++ list_ascii_of_string s
    /\ Forall (fun c => is_digit c = true) ds
    /\ (length ds <= n)%nat.
Proof.
  revert s n. induction (N.lt_wf_0 x) as [x _ IH]; intros s n Hx.
  assert (x = 0 \/ 0 < x)%N as [->|Hpos] by lia.
  - exists []. rewrite pretty_N_go_0. split; [done|]. split; [constructor | simpl; lia].
  - rewrite pretty_N_go_step by done.
    destruct n as [|n]; [simpl in Hx; lia|].
    destruct (IH (x `div` 10)%N (N.div_lt x 10 Hpos eq_refl)
                 (String (pretty_N_char (x `mod` 10)) s) n) as (ds & Heq & Hds & Hlen).
    { apply N.Div0.div_lt_upper_bound.
      rewrite Nat2N.inj_succ, N.pow_succ_r' in Hx. lia. }
    destruct (pretty_N_char_digit (x `mod` 10)%N) as [Hdig _]; [by apply N.mod_lt|].
    exists (ds ++ [pretty_N_char (x `mod` 10)]). split; [|split].
    + rewrite Heq. simpl. by rewrite <- app_assoc.
    + apply Forall_app. split; [done | by constructor].
    + rewrite length_app. simpl. lia.
Qed.

Lemma exact_text_pretty (z : Z) :
  - 10 ^ 15 < z < 10 ^ 15 -> exact_text (pretty z) = true.
Proof.
  intros Hz. pose proof (to_numeric_pretty z) as Hread.
  cbn [to_numeric] in Hread. unfold to_numeric_text in Hread.
  unfold exact_text. cbv zeta.
  destruct (xstrtod (list_ascii_of_string (pretty z))) as [v|] eqn:Hx;
    [|repeat case_bool_decide; discriminate].
  clear Hread Hx v.
  destruct z as [|p|p]; [by vm_compute| |].
  - unfold pretty, pretty_Z, pretty, pretty_positive, pretty, pretty_N.
    rewrite decide_False by done.
    destruct (pretty_N_go_length (N.pos p) "" 15) as (ds & Heq & Hds & Hlen); [lia|].
    rewrite Heq, app_nil_r.
    rewrite (forallb_digits _ ds digit_not_nul Hds).
    rewrite (forallb_digits _ ds digit_not_exponent_mark Hds).
    rewrite (filter_digits ds Hds). cbn [andb].
    by apply Nat.leb_le.
  - unfold pretty, pretty_Z, pretty, pretty_positive, pretty, pretty_N.
    rewrite decide_False by done.
    destruct (pretty_N_go_length (N.pos p) "" 15) as (ds & Heq & Hds & Hlen); [lia|].
    change (list_ascii_of_string ("-" +:+ pretty_N_go (N.pos p) ""))
      with ("-"%char :: list_ascii_of_string (pretty_N_go (N.pos p) "")).
    rewrite Heq, app_nil_r. cbn [forallb List.filter].
    change (is_digit "-") with false. change (is_exponent_mark "-") with false.
    change (code "-" =? 0)%N with false. cbn [negb andb].
    rewrite (forallb_digits _ ds digit_not_nul Hds).
    rewrite (forallb_digits _ ds digit_not_exponent_mark Hds).
    rewrite (filter_digits ds Hds). cbn [andb].
    by apply Nat.leb_le.
Qed.

(** X2: an integer of at most 15 digits written in decimal, as [str]
    writes it, is a text within the exact range, and it is read back as
    that integer. *)
Theorem to_numeric_of_decimal_text (z : Z) :
  - 10 ^ 15 < z < 10 ^ 15 ->
  exact_cell (VStr (pretty z)) = true
  /\ to_numeric (VStr (pretty z)) = VInt z.
Proof. intros Hz. split; [by apply exact_text_pretty | apply to_numeric_pretty]. Qed.

Lemma to_numeric_of_decimal_text_witness :
  exact_cell (VStr "11223344") = true
  /\ to_numeric (VStr "11223344") = VInt 11223344.
Proof. apply (to_numeric_of_decimal_text 11223344). lia. Defined.

Lemma quot_between n d z :
  0 < d -> 0 <= z -> z * d <= n -> n < (z + 1) * d -> Z.quot n d = z.
Proof.
  intros Hd Hz Hlo Hhi. rewrite Z.quot_div_nonneg by nia.
  symmetry. apply (Z.div_unique n d z (n - z * d)); lia.
Qed.

(** X3: the integer cast rounds towards zero.  For a float within the
    exact range, one between [z] and [z + 1] becomes [z] when [z] is not
    negative, and one between [z - 1] and [z] becomes [z] when [z] is
    not positive. *)
Theorem astype_int_rounds_towards_zero (q : Q) (z : Z) :
  exact_cell (VFloat q) = true ->
  (0 <= z /\ (inject_Z z <= q)%Q /\ (q < inject_Z (z + 1))%Q)
  \/ (z <= 0 /\ (inject_Z (z - 1) < q)%Q /\ (q <= inject_Z z)%Q) ->
  astype_int (VFloat q) = Return (VInt z).
Proof.
  intros _. destruct q as [n d]. unfold Qle, Qlt, astype_int, truncate.
  cbn [Qnum Qden inject_Z].
  intros [(Hz & Hlo & Hhi)|(Hz & Hlo & Hhi)]; do 2 f_equal.
  - apply quot_between; lia.
  - rewrite <- (Z.opp_involutive n), Z.quot_opp_l by lia.
    rewrite (quot_between (- n) (Z.pos d) (- z)); lia.
Qed.

Lemma astype_int_rounds_towards_zero_witness :
  astype_int (VFloat (247 # 2)) = Return (VInt 123)
  /\ astype_int (VFloat (-7 # 2)) = Return (VInt (-3)).
Proof.
  split; apply astype_int_rounds_towards_zero; try by vm_compute.
  - left. unfold Qle, Qlt. simpl. lia.
  - right. unfold Qle, Qlt. simpl. lia.
Defined.

Lemma skip_spaces_blank p :
  Forall (fun c => is_c_space c = true) p -> skip_spaces p = [].
Proof. induction 1 as [|c p Hc _ IH]; simpl; [done | by rewrite Hc]. Qed.

Lemma lower_bytes_space c p :
  is_c_space c = true -> lower_bytes (c :: p) = c :: lower_bytes p.
Proof.
  unfold is_c_space, in_range. intros Hc. simpl. unfold in_range.
  destruct (N.leb_spec 65 (code c)), (N.leb_spec (code c) 90), (N.eqb_spec (code c) 195);
    simpl; try done;
    destruct (N.leb_spec 9 (code c)), (N.leb_spec (code c) 13), (N.eqb_spec (code c) 32);
    simpl in Hc; try done; lia.
Qed.

(** X4: a text that is empty or holds only blanks is coerced to a missing
    value. *)
Theorem blank_text_is_missing (s : string) : blank s -> to_numeric (VStr s) = NaN.
Proof.
  unfold blank. intros Hs. cbn [to_numeric]. unfold to_numeric_text, xstrtod.
  rewrite (skip_spaces_blank _ Hs). cbn.
  destruct s as [|c s]; [by vm_compute|].
  apply Forall_inv in Hs as Hc. unfold lower. cbn [list_ascii_of_string].
  rewrite (lower_bytes_space _ _ Hc). cbn [string_of_list_ascii].
  rewrite !bool_decide_eq_false_2; [done| |].
  - intros Hin. repeat (apply elem_of_cons in Hin as [[= -> _]|Hin]; [done|]).
    inversion Hin.
  - intros Hin. repeat (apply elem_of_cons in Hin as [[= -> _]|Hin]; [done|]).
    inversion Hin.
Qed.

Lemma blank_text_is_missing_witness : to_numeric (VStr "   ") = NaN.
Proof. apply blank_text_is_missing. unfold blank. simpl. by repeat constructor. Defined.

(** X5: a row whose identifier is coerced to a missing value makes the
    cleaner show the warning and return fewer rows than it was given. *)
Theorem missing_identifier_is_reported df name evs df' i r :
  positions (LStr "nusp") (columns df) = [i] ->
  r ∈ rows df ->
  coerced i r = NaN ->
  preprocess_data df name = (evs, Return df') ->
  (exists n, (0 < n)%nat /\ evs = [StWarning (removed_warning n name)])
  /\ (length (rows df') < length (rows df))%nat.
Proof.
  intros Hi Hr Hna (i' & Hi' & _ & -> & ->)%preprocess_data_inv.
  rewrite Hi in Hi'. injection Hi' as <-.
  pose proof (length_filter_isna i (rows df)) as Hlen.
  assert (Hin : r ∈ filter (fun r => isna (coerced i r) = true) (rows df)).
  { apply list_elem_of_filter. by rewrite Hna. }
  destruct (filter (fun r => isna (coerced i r) = true) (rows df)) as [|r0 removed] eqn:Hf;
    [by inversion Hin|].
  split.
  - exists (S (length removed)). split; [lia|]. unfold removal_events.
    rewrite bool_decide_eq_true_2; [done | simpl; lia].
  - cbn [rows]. rewrite length_fmap. simpl in Hlen. lia.
Qed.

Lemma missing_identifier_is_reported_witness :
  (exists n, (0 < n)%nat
     /\ [StWarning (removed_warning 1 "pedidos.csv")]
        = [StWarning (removed_warning n "pedidos.csv")])
  /\ (length [[VInt 789; VStr "Davi"; VStr "CH"]] < length (rows requerimentos_abc))%nat.
Proof.
  apply (missing_identifier_is_reported requerimentos_abc "pedidos.csv"
           [StWarning (removed_warning 1 "pedidos.csv")]
           (Frame (columns requerimentos_abc) [[VInt 789; VStr "Davi"; VStr "CH"]])
           0 [VStr "abc"; VStr "Carla"; VStr "QR"]);
    [reflexivity | by left | by vm_compute | by vm_compute].
Defined.

(* ================================================================= *)
(** * Further properties of the normalizer and the validator *)

(** X6: the normalizer keeps the rows and the number and order of the
    columns; the label at each position becomes the standard name of its
    normalised form when it has one and is kept as it is otherwise. *)
Theorem normalizer_renames_in_place df df' :
  find_and_rename_nusp_column df = Return df' ->
  rows df' = rows df
  /\ length (columns df') = length (columns df)
  /\ forall k c, columns df !! k = Some c ->
       columns df' !! k
       = Some (match standard_name_in rename_map (strip (lower (py_str c))) with
               | Some name => LStr name
               | None => c
               end).
Proof.
  intros [-> _]%find_and_rename_Return. unfold renamed. cbn [rows columns].
  split; [done|]. split; [apply length_fmap|].
  intros k c Hk. by rewrite list_lookup_fmap, Hk.
Qed.

Lemma normalizer_renames_in_place_witness :
  columns (Frame [LStr "nusp"; LStr "obs_sg"; LStr "Curso"] []) !! 1%nat
  = Some (LStr "obs_sg").
Proof.
  destruct (normalizer_renames_in_place
              (Frame [LStr "N° USP"; LStr "Observação SG "; LStr "Curso"] [])
              (Frame [LStr "nusp"; LStr "obs_sg"; LStr "Curso"] []))
    as (_ & _ & Hlabel); [by vm_compute|].
  rewrite (Hlabel 1%nat (LStr "Observação SG ") eq_refl). by vm_compute.
Defined.

Lemma two_positions (l : list nat) k1 k2 :
  k1 <> k2 -> k1 ∈ l -> k2 ∈ l -> exists a b rest, l = a :: b :: rest.
Proof.
  intros Hne H1 H2. destruct l as [|a [|b rest]]; [by inversion H1| |by eauto].
  apply list_elem_of_singleton in H1, H2. congruence.
Qed.

(** X7: when two columns normalise to the identifier, the normalizer
    returns a table with two columns labelled [nusp], and the cleaner
    then fails on it with a [TypeError], before any row is examined. *)
Theorem duplicate_identifier_columns df name k1 k2 c1 c2 :
  k1 <> k2 ->
  columns df !! k1 = Some c1 -> columns df !! k2 = Some c2 ->
  normalized_col c1 ∈ nusp_variations -> normalized_col c2 ∈ nusp_variations ->
  exists df',
    find_and_rename_nusp_column df = Return df'
    /\ columns df' !! k1 = Some (LStr "nusp")
    /\ columns df' !! k2 = Some (LStr "nusp")
    /\ preprocess_data df' name
       = ([], Raise (TypeError "arg must be a list, tuple, 1-d array, or Series")).
Proof.
  intros Hne Hk1 Hk2 Hc1 Hc2. exists (renamed df).
  apply canonical_nusp in Hc1, Hc2.
  assert (Hl1 : columns (renamed df) !! k1 = Some (LStr "nusp"))
    by (unfold renamed; cbn [columns]; by rewrite list_lookup_fmap, Hk1, <- Hc1).
  assert (Hl2 : columns (renamed df) !! k2 = Some (LStr "nusp"))
    by (unfold renamed; cbn [columns]; by rewrite list_lookup_fmap, Hk2, <- Hc2).
  split; [|split; [done|split; [done|]]].
  - apply find_and_rename_found. exists c1.
    split; [by eapply list_elem_of_lookup_2 | by apply canonical_nusp].
  - destruct (two_positions (positions (LStr "nusp") (columns (renamed df))) k1 k2 Hne)
      as (a & b & rest & Hpos).
    + apply (positions_from_spec 0). by exists k1.
    + apply (positions_from_spec 0). by exists k2.
    + unfold preprocess_data. by rewrite Hpos.
Qed.

Lemma duplicate_identifier_columns_witness :
  exists df',
    find_and_rename_nusp_column
      (Frame [LStr "NUSP"; LStr "Nome completo"; LStr "Número USP"] []) = Return df'
    /\ columns df' !! 0%nat = Some (LStr "nusp")
    /\ columns df' !! 2%nat = Some (LStr "nusp")
    /\ preprocess_data df' "pedidos.xlsx"
       = ([], Raise (TypeError "arg must be a list, tuple, 1-d array, or Series")).
Proof.
  apply (duplicate_identifier_columns _ _ 0%nat 2%nat (LStr "NUSP") (LStr "Número USP"));
    [done | done | done | |]; apply (bool_decide_unpack _); by vm_compute.
Defined.

(** X8: for a table the normalizer has returned, the validator never
    counts [nusp] among the missing columns. *)
Theorem normalized_table_has_identifier df df' required :
  find_and_rename_nusp_column df = Return df' ->
  "nusp" ∉ missing_cols required df'.
Proof.
  intros [_ Hin]%find_and_rename_Return [_ Hmiss]%missing_cols_spec.
  unfold in_columns in Hin. by apply bool_decide_eq_true in Hin.
Qed.

Lemma normalized_table_has_identifier_witness :
  "nusp" ∉ missing_cols required_cols_consolidado (renamed historico_calculus).
Proof.
  apply (normalized_table_has_identifier historico_calculus). by vm_compute.
Defined.

(* ================================================================= *)
(** * Further properties of the reconciler *)

Lemma filter_ext_in {A} (P Q : A -> Prop)
    `{!forall x, Decision (P x), !forall x, Decision (Q x)} (l : list A) :
  (forall x, x ∈ l -> P x <-> Q x) -> filter P l = filter Q l.
Proof.
  induction l as [|x l IH]; intros Hl; [done|]. rewrite !filter_cons.
  rewrite IH by (intros y Hy; apply Hl; by right).
  specialize (Hl x ltac:(by left)).
  destruct (decide (P x)), (decide (Q x)); tauto.
Qed.

(** The reconciler on cleaned tables, with the new requests read off
    the historical table. *)
Lemma reconcile_cleaned_rows req cons :
  cleaned req -> cleaned cons ->
  exists rec i j,
    reconcile req cons = Return rec
    /\ positions (LStr "nusp") (columns req) = [i]
    /\ positions (LStr "nusp") (columns cons) = [j]
    /\ positions (LStr "nusp") (columns (alunos_com_historico rec)) = [i]
    /\ rows (alunos_com_historico rec) = rows req ≫= matches i j (rows cons)
    /\ nusps_com_historico rec
       = list_to_set (at_pos i <$> (rows req ≫= matches i j (rows cons)))
    /\ columns (df_novos rec) = columns req
    /\ rows (df_novos rec)
       = filter (fun r => at_pos i r ∉ series j cons) (rows req).
Proof.
  intros (i & Hi & Hreq) (j & Hj & Hcons).
  destruct (reconcile_eq req cons i j Hi Hj) as (joined & Hm & Hpos & Hrows & Hrec).
  eexists _, i, j. split; [exact Hrec|].
  cbn [alunos_com_historico nusps_com_historico df_novos rows columns].
  split; [done|]. split; [done|]. split; [exact Hpos|]. split; [exact Hrows|].
  split; [unfold series; by rewrite Hrows|]. split; [done|].
  apply filter_ext_in. intros r Hr.
  assert (Hlong : forall l, l ∈ rows req -> (i < length l)%nat).
  { intros l (z & Hz)%Hreq. by apply lookup_lt_Some in Hz. }
  rewrite elem_of_list_to_set. unfold series. rewrite Hrows.
  rewrite (joined_keys i j _ _ _ Hlong), list_elem_of_fmap. split.
  - intros Hno (h & Heq & Hh). apply Hno. split; [by exists r | by exists h].
  - intros Hno [_ (h & Hh & Heq)]. apply Hno. by exists h.
Qed.

(** X9: for cleaned tables, the new requests are, in order, exactly the
    current rows whose identifier is not an identifier of the historical
    table; the columns are those of the current table. *)
Theorem new_requests_are_rows_without_history req cons :
  cleaned req -> cleaned cons ->
  exists rec i j,
    reconcile req cons = Return rec
    /\ positions (LStr "nusp") (columns req) = [i]
    /\ positions (LStr "nusp") (columns cons) = [j]
    /\ columns (df_novos rec) = columns req
    /\ rows (df_novos rec)
       = filter (fun r => at_pos i r ∉ series j cons) (rows req).
Proof.
  intros Hreq Hcons.
  destruct (reconcile_cleaned_rows req cons Hreq Hcons)
    as (rec & i & j & Hrec & Hi & Hj & _ & _ & _ & Hcols & Hrows).
  by exists rec, i, j.
Qed.

Lemma new_requests_are_rows_without_history_witness :
  exists rec i j,
    reconcile requerimentos_limpos historico_limpo = Return rec
    /\ positions (LStr "nusp") (columns requerimentos_limpos) = [i]
    /\ positions (LStr "nusp") (columns historico_limpo) = [j]
    /\ columns (df_novos rec) = columns requerimentos_limpos
    /\ rows (df_novos rec)
       = filter (fun r => at_pos i r ∉ series j historico_limpo)
                (rows requerimentos_limpos).
Proof.
  apply (new_requests_are_rows_without_history requerimentos_limpos historico_limpo);
    cleaned_by_rows.
Defined.

(** X10: when no current identifier is an identifier of the historical
    table (an empty history included), the joined table has no row, no
    identifier has history and the new requests are the whole current
    table. *)
Theorem without_shared_identifier_all_are_new req cons i j :
  cleaned req -> cleaned cons ->
  positions (LStr "nusp") (columns req) = [i] ->
  positions (LStr "nusp") (columns cons) = [j] ->
  (forall r h, r ∈ rows req -> h ∈ rows cons -> at_pos j h <> at_pos i r) ->
  exists rec,
    reconcile req cons = Return rec
    /\ rows (alunos_com_historico rec) = []
    /\ nusps_com_historico rec = ∅
    /\ df_novos rec = req.
Proof.
  intros Hreq Hcons Hi Hj Hno.
  destruct (reconcile_cleaned_rows req cons Hreq Hcons)
    as (rec & i' & j' & Hrec & Hi' & Hj' & _ & Hjoined & Hset & Hcols & Hrows).
  rewrite Hi in Hi'. rewrite Hj in Hj'. injection Hi' as <-. injection Hj' as <-.
  assert (Hempty : rows req ≫= matches i j (rows cons) = []).
  { clear -Hno. revert Hno. generalize (rows req) as rws.
    induction rws as [|r rws IH]; intros Hno; [done|]. rewrite bind_cons.
    rewrite IH by (intros r' h Hr'; apply Hno; by right).
    unfold matches. rewrite filter_none; [done|].
    intros h Hh. apply Hno; [by left | done]. }
  exists rec. split; [done|]. rewrite Hset, Hjoined, Hempty.
  split; [done|]. split; [done|].
  destruct rec as [joined nusps [novos_cols novos_rows]]. cbn in *.
  destruct req as [cols rws]. cbn in *. rewrite Hcols, Hrows. f_equal.
  apply filter_all. intros r Hr (h & Heq & Hh)%list_elem_of_fmap.
  by apply (Hno r h).
Qed.

Lemma without_shared_identifier_all_are_new_witness :
  exists rec,
    reconcile requerimentos_limpos (Frame (columns historico_limpo) []) = Return rec
    /\ rows (alunos_com_historico rec) = []
    /\ nusps_com_historico rec = ∅
    /\ df_novos rec = requerimentos_limpos.
Proof.
  apply (without_shared_identifier_all_are_new _ _ 0%nat 0%nat);
    [cleaned_by_rows | cleaned_by_rows | reflexivity | reflexivity |].
  intros r h _ Hh. inversion Hh.
Defined.

(** X11: when every current identifier is an identifier of the historical
    table, there is no new request. *)
Theorem with_history_for_all_none_is_new req cons i j :
  cleaned req -> cleaned cons ->
  positions (LStr "nusp") (columns req) = [i] ->
  positions (LStr "nusp") (columns cons) = [j] ->
  (forall r, r ∈ rows req -> exists h, h ∈ rows cons /\ at_pos j h = at_pos i r) ->
  exists rec, reconcile req cons = Return rec /\ rows (df_novos rec) = [].
Proof.
  intros Hreq Hcons Hi Hj Hall.
  destruct (reconcile_cleaned_rows req cons Hreq Hcons)
    as (rec & i' & j' & Hrec & Hi' & Hj' & _ & _ & _ & _ & Hrows).
  rewrite Hi in Hi'. rewrite Hj in Hj'. injection Hi' as <-. injection Hj' as <-.
  exists rec. split; [done|]. rewrite Hrows. apply filter_none.
  intros r Hr Hno. destruct (Hall r Hr) as (h & Hh & Heq). apply Hno.
  unfold series. apply list_elem_of_fmap. by exists h.
Qed.

Lemma with_history_for_all_none_is_new_witness :
  exists rec,
    reconcile requerimento_ana historico_dois_cursos = Return rec
    /\ rows (df_novos rec) = [].
Proof.
  apply (with_history_for_all_none_is_new _ _ 0%nat 0%nat);
    [cleaned_by_rows | cleaned_by_rows | reflexivity | reflexivity |].
  intros r Hr. exists [VInt 123; VStr "Calculus"]. split; [by left|].
  apply list_elem_of_singleton in Hr as ->. reflexivity.
Defined.

Lemma matches_keys i j right_rows l k :
  (i < length l)%nat ->
  filter (fun x => at_pos i x = k) (matches i j right_rows l)
  = if decide (at_pos i l = k) then matches i j right_rows l else [].
Proof.
  intros Hl.
  assert (Hkey : forall x, x ∈ matches i j right_rows l -> at_pos i x = at_pos i l).
  { unfold matches. intros x (h & -> & _)%list_elem_of_fmap. by apply at_pos_app. }
  case_decide as Hk.
  - apply filter_all. intros x Hx. by rewrite (Hkey x Hx).
  - apply filter_none. intros x Hx. by rewrite (Hkey x Hx).
Qed.

(** X12: for cleaned tables, the number of joined rows with a given
    identifier is the number of current rows with it times the number of
    historical rows with it. *)
Theorem joined_rows_per_identifier req cons joined i j k :
  cleaned req ->
  positions (LStr "nusp") (columns req) = [i] ->
  positions (LStr "nusp") (columns cons) = [j] ->
  merge req cons (LStr "nusp") = Return joined ->
  length (filter (fun x => at_pos i x = k) (rows joined))
  = (length (filter (fun r => at_pos i r = k) (rows req))
     * length (filter (fun h => at_pos j h = k) (rows cons)))%nat.
Proof.
  intros Hreq Hi Hj Hm.
  apply merge_inv in Hm as (i' & j' & Hi' & Hj' & ->).
  rewrite Hi in Hi'. rewrite Hj in Hj'. injection Hi' as <-. injection Hj' as <-.
  assert (Hlong : forall l, l ∈ rows req -> (i < length l)%nat).
  { destruct Hreq as (i' & Hi' & Hint). rewrite Hi in Hi'. injection Hi' as <-.
    intros l (z & Hz)%Hint. by apply lookup_lt_Some in Hz. }
  clear -Hlong. revert Hlong. generalize (rows req) as rws.
  induction rws as [|l rws IH]; intros Hlong; [done|].
  rewrite bind_cons, filter_app, length_app, filter_cons.
  rewrite IH by (intros l' Hl'; apply Hlong; by right).
  rewrite matches_keys by (apply Hlong; by left).
  destruct (decide (at_pos i l = k)) as [Hk|Hk]; [|simpl; lia].
  rewrite matches_length, Hk. simpl. lia.
Qed.

Lemma joined_rows_per_identifier_witness :
  length (filter (fun x => at_pos 0 x = VInt 123)
            [[VInt 123; VStr "Ana"; VStr "Calculus"];
             [VInt 123; VStr "Ana"; VStr "Physics"]])
  = (length (filter (fun r => at_pos 0 r = VInt 123) (rows requerimento_ana))
     * length (filter (fun h => at_pos 0 h = VInt 123) (rows historico_dois_cursos)))%nat.
Proof.
  apply (joined_rows_per_identifier requerimento_ana historico_dois_cursos
           (Frame [LStr "nusp"; LStr "Nome completo"; LStr "disciplina_historico"]
                  [[VInt 123; VStr "Ana"; VStr "Calculus"];
                   [VInt 123; VStr "Ana"; VStr "Physics"]]) 0%nat 0%nat);
    [cleaned_by_rows | reflexivity | reflexivity | by vm_compute].
Defined.

(* ================================================================= *)
(** * Further properties of the aggregator *)

(** X13: no decision is counted both as approved and as denied, a cell
    that is not a text is counted as neither, and so the two counts
    together never exceed the number of decisions. *)
Theorem approved_and_denied_are_disjoint (parecer_historico : list cell) :
  let pareceres := str_lower <$> parecer_historico in
  (forall p, aprovado p = true -> negado p = false)
  /\ (forall c, (forall s, c <> VStr s) ->
        aprovado (str_lower c) = false /\ negado (str_lower c) = false)
  /\ (mask_sum (aprovado <$> pareceres) + mask_sum (negado <$> pareceres)
      <= length parecer_historico)%nat.
Proof.
  cbv zeta. split; [|split].
  - intros p. unfold aprovado, negado. by destruct (str_contains _ p), (str_contains _ p).
  - intros c Hc. destruct c; try done. by destruct (Hc s).
  - induction parecer_historico as [|c col IH]; [done|].
    rewrite !fmap_cons, !mask_sum_cons. simpl length.
    unfold aprovado at 1, negado at 1.
    destruct (str_contains ["aprovado"] _), (str_contains ["indeferido"; "negado"] _);
      simpl; lia.
Qed.

Lemma approved_and_denied_are_disjoint_witness :
  negado (str_lower (VStr "Aprovado")) = false
  /\ (mask_sum (aprovado <$> (str_lower <$> [VStr "Aprovado"; VStr "Negado"; NaN]))
      + mask_sum (negado <$> (str_lower <$> [VStr "Aprovado"; VStr "Negado"; NaN]))
      <= 3)%nat.
Proof.
  destruct (approved_and_denied_are_disjoint [VStr "Aprovado"; VStr "Negado"; NaN])
    as (Hdisjoint & _ & Hsum).
  split; [by apply Hdisjoint | exact Hsum].
Defined.

Lemma rate_bounds part total q :
  0 <= part <= total -> 0 < total ->
  (inject_Z part / inject_Z total * 100 = q -> 0 <= q /\ q <= 100)%Q.
Proof.
  intros Hpart Htotal <-. destruct total as [|t|t]; try lia.
  unfold Qle, Qdiv, Qinv, inject_Z. cbn [Qnum Qden Qmult].
  rewrite ?Pos.mul_1_r, ?Pos.mul_1_l, ?Z.mul_1_r. split; lia.
Qed.

Lemma rates_bounds_both :
  (forall aprovados negados taxa,
     taxa_aprovacao aprovados negados = Return taxa -> (0 <= taxa /\ taxa <= 100)%Q)
  /\ (forall com_historico total percentual,
        (com_historico <= total)%nat ->
        percentual_historico com_historico total = Return percentual ->
        (0 <= percentual /\ percentual <= 100)%Q).
Proof.
  split.
  - intros a n taxa. unfold taxa_aprovacao, truediv. case_bool_decide as Hpos.
    + destruct (Z.eqb_spec (Z.of_nat (a + n)) 0); [lia|].
      cbn [mbind result_bind mret result_ret]. intros [= Hq].
      apply (rate_bounds (Z.of_nat a) (Z.of_nat (a + n))); [lia | lia | by rewrite Hq].
    + intros [= <-]. done.
  - intros h t percentual Hle. unfold percentual_historico, truediv.
    case_bool_decide as Hpos.
    + destruct (Z.eqb_spec (Z.of_nat t) 0); [lia|].
      cbn [mbind result_bind mret result_ret]. intros [= Hq].
      apply (rate_bounds (Z.of_nat h) (Z.of_nat t)); [lia | lia | by rewrite Hq].
    + intros [= <-]. done.
Qed.

(** X14: the approval rate lies between 0 and 100, and so does the share
    of students with history when they are not more than the students of
    the current table. *)
Theorem rates_are_percentages :
  (forall aprovados negados taxa,
     taxa_aprovacao aprovados negados = Return taxa -> (0 <= taxa /\ taxa <= 100)%Q)
  /\ (forall com_historico total percentual,
        (com_historico <= total)%nat ->
        percentual_historico com_historico total = Return percentual ->
        (0 <= percentual /\ percentual <= 100)%Q).
Proof. exact rates_bounds_both. Qed.

Lemma rates_are_percentages_witness :
  (0 <= 100 # 3 /\ 100 # 3 <= 100)%Q.
Proof.
  apply (proj1 rates_are_percentages 1%nat 2%nat). reflexivity.
Defined.

(** What a returned overview holds. *)
Lemma display_overview_inv df_r joined novos ov :
  display_overview df_r joined novos = Return ov ->
  exists nusp_hist nusp_req nusp_novos,
    getitem (LStr "nusp") joined = Return nusp_hist
    /\ getitem (LStr "nusp") df_r = Return nusp_req
    /\ getitem (LStr "nusp") novos = Return nusp_novos
    /\ total_req ov = length (rows df_r)
    /\ alunos_unicos_com_hist ov = nunique nusp_hist
    /\ total_alunos_req ov = nunique nusp_req
    /\ alunos_novos ov = nunique nusp_novos
    /\ percentual_historico (nunique nusp_hist) (nunique nusp_req)
       = Return (percentual ov).
Proof.
  unfold display_overview.
  destruct (getitem (LStr "nusp") joined) as [nusp_hist|] eqn:H1; [|done].
  destruct (getitem (LStr "nusp") df_r) as [nusp_req|] eqn:H2; [|done].
  cbn [mbind result_bind].
  destruct (percentual_historico _ _) as [percentual|] eqn:H3; [|done].
  cbn [mbind result_bind].
  destruct (getitem (LStr "nusp") novos) as [nusp_novos|] eqn:H4; [|done].
  cbn [mbind result_bind]. intros Hov.
  exists nusp_hist, nusp_req, nusp_novos. do 3 (split; [done|]).
  case_bool_decide.
  - destruct (getitem (LStr "parecer_historico") joined); [|done].
    cbn [mbind result_bind] in Hov. destruct (taxa_aprovacao _ _); [|done].
    by injection Hov as <-.
  - by injection Hov as <-.
Qed.

Lemma nunique_integers (vs : list cell) :
  (forall v, v ∈ vs -> exists z, v = VInt z) ->
  nunique vs = size (list_to_set vs : gset cell).
Proof.
  intros Hint. unfold nunique. rewrite filter_all; [done|].
  by intros v (z & ->)%Hint.
Qed.

(** X15: the headline numbers of the overview add up.  After a successful
    run, the students with history and the new students are together the
    students of the current table, the total of requests is the number
    of its rows, and the share of students with history lies between 0
    and 100. *)
Theorem overview_numbers_add_up raw_c raw_r name_c name_r evs p ov :
  process raw_c raw_r name_c name_r = (evs, Return p) ->
  display_overview (df_requerimentos p) (alunos_com_historico (reconciled p))
    (df_novos (reconciled p)) = Return ov ->
  (alunos_unicos_com_hist ov + alunos_novos ov)%nat = total_alunos_req ov
  /\ total_req ov = length (rows (df_requerimentos p))
  /\ (0 <= percentual ov /\ percentual ov <= 100)%Q.
Proof.
  intros (Hreq & Hcons & Hrec)%process_joins_cleaned Hov.
  destruct (reconcile_cleaned_rows _ _ Hreq Hcons)
    as (rec & i & j & Hrec' & Hi & Hj & Hpos & Hjoined & Hset & Hcols & Hrows).
  rewrite Hrec in Hrec'. injection Hrec' as <-.
  apply display_overview_inv in Hov
    as (nusp_hist & nusp_req & nusp_novos & Hh & Hr & Hn & Htotal & Hch & Hcr & Hcn & Hperc).
  rewrite (getitem_eq _ _ i Hpos) in Hh. rewrite (getitem_eq _ _ i Hi) in Hr.
  assert (Hpos_novos : positions (LStr "nusp") (columns (df_novos (reconciled p))) = [i])
    by (by rewrite Hcols).
  rewrite (getitem_eq _ _ i Hpos_novos) in Hn.
  injection Hh as <-. injection Hr as <-. injection Hn as <-.
  assert (Hint : forall r, r ∈ rows (df_requerimentos p) ->
            exists z, at_pos i r = VInt z /\ (i < length r)%nat).
  { destruct Hreq as (i' & Hi' & Hint). rewrite Hi in Hi'. injection Hi' as <-.
    intros r (z & Hz)%Hint. exists z.
    split; [by apply at_pos_lookup | by apply lookup_lt_Some in Hz]. }
  assert (Hlong : forall l, l ∈ rows (df_requerimentos p) -> (i < length l)%nat).
  { intros l Hl. by destruct (Hint l Hl) as (z & _ & Hlt). }
  assert (Hkeys := fun k => joined_keys i j (rows (df_requerimentos p))
                              (rows (df_consolidado p)) k Hlong).
  rewrite <- Hch, <- Hcr in Hperc.
  unfold series in *. rewrite Hjoined, Hrows in *.
  rewrite nunique_integers in Hch, Hcr, Hcn.
  - assert (Hsize : (alunos_unicos_com_hist ov + alunos_novos ov)%nat
                    = total_alunos_req ov).
    { rewrite Hch, Hcr, Hcn, <- size_union.
      - f_equal. apply set_eq. intros k.
        rewrite elem_of_union, !elem_of_list_to_set, Hkeys, !list_elem_of_fmap. split.
        + intros [[(l & Hl & <-) _]|(l & -> & [_ Hl]%list_elem_of_filter)]; eauto.
        + intros (l & -> & Hl).
          destruct (decide (at_pos i l ∈ at_pos j <$> rows (df_consolidado p)))
            as [(h & Heq & Hh)%list_elem_of_fmap|Hnin].
          * left. split; [by exists l | by exists h].
          * right. exists l. split; [done|]. by apply list_elem_of_filter.
      - intros k. rewrite !elem_of_list_to_set, Hkeys, list_elem_of_fmap.
        intros [_ (h & Hh & Heq)] (l & -> & [Hno _]%list_elem_of_filter).
        apply Hno. apply list_elem_of_fmap. by exists h. }
    split; [done|]. split; [done|].
    assert (Hle : (alunos_unicos_com_hist ov <= total_alunos_req ov)%nat) by lia.
    exact (proj2 rates_bounds_both _ _ _ Hle Hperc).
  - intros v (r & -> & [_ Hr]%list_elem_of_filter)%list_elem_of_fmap.
    destruct (Hint r Hr) as (z & Hz & _). by exists z.
  - intros v (r & -> & Hr)%list_elem_of_fmap.
    destruct (Hint r Hr) as (z & Hz & _). by exists z.
  - intros v (x & -> & Hx)%list_elem_of_fmap.
    destruct (proj1 (Hkeys (at_pos i x))) as [(l & Hl & Heq) _].
    { apply list_elem_of_fmap. by exists x. }
    destruct (Hint l Hl) as (z & Hz & _). exists z. congruence.
Qed.

Lemma overview_numbers_add_up_witness :
  let ov := Overview 2 1 2 (100 # 2) 1 1 0 (Some 100%Q) in
  (alunos_unicos_com_hist ov + alunos_novos ov)%nat = total_alunos_req ov
  /\ total_req ov = length (rows (df_requerimentos processed_ana_bruno))
  /\ (0 <= percentual ov /\ percentual ov <= 100)%Q.
Proof.
  apply (overview_numbers_add_up historico_calculus requerimentos_ana_bruno
           "historico.csv" "pedidos.csv" [] processed_ana_bruno); by vm_compute.
Defined.

(* ================================================================= *)
(** * Further properties of the processing block *)

Lemma only_warnings_bind {A B} (m : M A) (k : A -> M B) a b :
  only_warnings a m.1 -> (forall x, only_warnings b (k x).1) ->
  only_warnings (a + b) (m ≫= k).1.
Proof.
  intros [Hm Hlen] Hk. destruct m as [evs [x|e]]; unfold mbind, M_bind; cbn in *.
  - destruct (Hk x) as [Hkx Hlenx]. destruct (k x) as [evs' r]. cbn in *.
    split; [by apply Forall_app | rewrite length_app; lia].
  - split; [done | lia].
Qed.

Lemma only_warnings_lift {A} (r : result A) : only_warnings 0 (lift r).1.
Proof. split; [constructor | done]. Qed.

Lemma only_warnings_preprocess_data df name :
  only_warnings 1 (preprocess_data df name).1.
Proof.
  destruct (positions (LStr "nusp") (columns df)) as [|i [|i' l]] eqn:Hi;
    try (unfold preprocess_data; rewrite Hi; split; [constructor | simpl; lia]).
  rewrite (preprocess_data_eq df name i Hi). cbn [fst]. unfold removal_events.
  case_bool_decide; split; simpl; try lia; repeat constructor.
Qed.

Lemma only_warnings_process raw_c raw_r name_c name_r :
  only_warnings 2 (process raw_c raw_r name_c name_r).1.
Proof.
  unfold process.
  apply (only_warnings_bind _ _ 0 2); [apply only_warnings_lift | intros df_c].
  apply (only_warnings_bind _ _ 0 2); [apply only_warnings_lift | intros df_r].
  apply (only_warnings_bind _ _ 0 2); [apply only_warnings_lift | intros _].
  apply (only_warnings_bind _ _ 1 1); [apply only_warnings_preprocess_data | intros clean_c].
  apply (only_warnings_bind _ _ 1 0); [apply only_warnings_preprocess_data | intros clean_r].
  apply (only_warnings_bind _ _ 0 0); [apply only_warnings_lift | intros rec].
  split; [constructor | done].
Qed.

(** X16: what the processing block shows, and what [run_app] shows when
    the block fails, for identifiers within the exact range.  The
    messages of the block are warnings of the cleaner, at most one per
    file.  When the block raises, [run_app] has no result and shows
    these warnings and then exactly one error. *)
Theorem processing_failure_is_reported_once raw_c raw_r name_c name_r evs outcome :
  exact_identifiers (renamed raw_c) = true ->
  exact_identifiers (renamed raw_r) = true ->
  process raw_c raw_r name_c name_r = (evs, outcome) ->
  only_warnings 2 evs
  /\ forall e, outcome = Raise e ->
       exists msg, run_app raw_c raw_r name_c name_r = (evs ++ [StError msg], None).
Proof.
  intros _ _ H. pose proof (only_warnings_process raw_c raw_r name_c name_r) as Hw.
  rewrite H in Hw. split; [done|]. intros e ->.
  unfold run_app. rewrite H. destruct e; by eexists.
Qed.

Lemma processing_failure_is_reported_once_witness :
  exists msg,
    run_app historico_calculus requerimentos_infinito "historico.csv" "pedidos.csv"
    = ([StWarning (removed_warning 1 "pedidos.csv"); StError msg], None).
Proof.
  destruct (processing_failure_is_reported_once
              historico_calculus requerimentos_infinito "historico.csv" "pedidos.csv"
              [StWarning (removed_warning 1 "pedidos.csv")]
              (Raise (ValueError "Cannot convert non-finite values (NA or inf) to integer")))
    as [_ H]; [by vm_compute | by vm_compute | by vm_compute |].
  exact (H _ eq_refl).
Defined.

Lemma validate_dataframes_Return df_c df_r :
  validate_dataframes df_c df_r = Return tt ->
  (forall col, col ∈ required_cols_consolidado -> LStr col ∈ columns df_c)
  /\ (forall col, col ∈ required_cols_requerimentos -> LStr col ∈ columns df_r).
Proof.
  unfold validate_dataframes. cbv zeta.
  destruct (missing_cols required_cols_consolidado df_c) as [|c mc] eqn:Hc;
    destruct (missing_cols required_cols_requerimentos df_r) as [|r mr] eqn:Hr;
    try done.
  intros _. split; intros col Hcol.
  - destruct (decide (LStr col ∈ columns df_c)) as [|Hno]; [done|].
    assert (Hin : col ∈ missing_cols required_cols_consolidado df_c)
      by (by apply missing_cols_spec).
    rewrite Hc in Hin. inversion Hin.
  - destruct (decide (LStr col ∈ columns df_r)) as [|Hno]; [done|].
    assert (Hin : col ∈ missing_cols required_cols_requerimentos df_r)
      by (by apply missing_cols_spec).
    rewrite Hr in Hin. inversion Hin.
Qed.

Lemma preprocess_data_columns df name evs df' :
  preprocess_data df name = (evs, Return df') -> columns df' = columns df.
Proof. by intros (i & _ & _ & _ & ->)%preprocess_data_inv. Qed.

Lemma select_fmap {A} (f : A -> bool) (l : list A) :
  select (f <$> l) l = filter (fun x => f x = true) l.
Proof.
  induction l as [|x l IH]; [done|]. rewrite fmap_cons, filter_cons. cbn [select].
  rewrite IH. by destruct (f x).
Qed.

Lemma drop_column_columns c df :
  columns (drop_column c df) = filter (fun c' => c' <> c) (columns df).
Proof.
  unfold drop_column. cbn [columns]. rewrite select_fmap.
  apply list_filter_iff. intros c'. by rewrite bool_decide_eq_true.
Qed.

(** The keys that [req_rename_map] adds are the optional columns. *)
Lemma req_rename_map_lookup df k :
  k ∉ (LStr <$> optional_cols) ->
  req_rename_map df !! k
  = ({[ LStr "problema" := LStr "problema_atual" ]} : gmap label label) !! k.
Proof.
  unfold req_rename_map.
  generalize ({[ LStr "problema" := LStr "problema_atual" ]} : gmap label label).
  induction optional_cols as [|c cols IH]; intros m Hk; [done|].
  rewrite fmap_cons, not_elem_of_cons in Hk. destruct Hk as [Hne Hk].
  cbn [foldl]. rewrite IH by done.
  destruct (in_columns (LStr c) df); [by rewrite lookup_insert_ne | done].
Qed.

Lemma process_columns raw_c raw_r name_c name_r evs p :
  process raw_c raw_r name_c name_r = (evs, Return p) ->
  (LStr "Nome completo" ∉ columns (df_consolidado p))
  /\ LStr "Nome completo" ∈ columns (df_requerimentos p)
  /\ LStr "problema_atual" ∈ columns (df_requerimentos p)
  /\ LStr "nusp" ∈ columns (df_requerimentos p).
Proof.
  intros H. pose proof (process_joins_cleaned _ _ _ _ _ _ H) as ((i & Hi & _) & _ & _).
  apply process_inv in H
    as (df_c & df_r & clean_c & clean_r & evs_c & evs_r & _ & _ & Hv & Hc & Hr
        & _ & Hpc & Hpr & _).
  apply validate_dataframes_Return in Hv as [_ Hreq].
  apply preprocess_data_columns in Hc, Hr.
  rewrite Hpc, Hpr. unfold rename. cbn [columns]. rewrite Hc, Hr.
  split; [|split; [|split]].
  - intros (c & Hc' & Hin)%list_elem_of_fmap.
    assert (Hne : c <> LStr "Nome completo").
    { destruct (in_columns _ df_c) eqn:Hnc.
      - rewrite drop_column_columns in Hin. by apply list_elem_of_filter in Hin as [? _].
      - intros ->. unfold in_columns in Hnc. by apply bool_decide_eq_false in Hnc. }
    destruct (cols_to_rename_hist !! c) as [new|] eqn:Hnew; cbn in Hc'; [|congruence].
    assert (Hall : map_Forall (fun _ new => new <> LStr "Nome completo")
                     cols_to_rename_hist)
      by (apply (bool_decide_unpack _); by vm_compute).
    by apply Hall in Hnew.
  - apply list_elem_of_fmap. exists (LStr "Nome completo").
    split; [|apply Hreq; apply (bool_decide_unpack _); by vm_compute].
    rewrite req_rename_map_lookup; [done|].
    apply (bool_decide_unpack _). by vm_compute.
  - apply list_elem_of_fmap. exists (LStr "problema").
    split; [|apply Hreq; apply (bool_decide_unpack _); by vm_compute].
    rewrite req_rename_map_lookup; [done|].
    apply (bool_decide_unpack _). by vm_compute.
  - rewrite Hpr in Hi. unfold rename in Hi. cbn [columns] in Hi. rewrite Hr in Hi.
    destruct (decide (LStr "nusp" ∈ (fun c => default c (req_rename_map clean_r !! c))
                                      <$> columns df_r)) as [|Hno]; [done|].
    apply (positions_from_nil 0) in Hno. unfold positions in Hi. congruence.
Qed.

(** X17: after a successful run the joined table has the columns [nusp]
    and [Nome completo] under these names: the historical table no longer
    has a [Nome completo] column, so the join does not suffix the one of
    the current table. *)
Theorem joined_table_keeps_student_columns raw_c raw_r name_c name_r evs p :
  process raw_c raw_r name_c name_r = (evs, Return p) ->
  (LStr "Nome completo" ∉ columns (df_consolidado p))
  /\ LStr "nusp" ∈ columns (alunos_com_historico (reconciled p))
  /\ LStr "Nome completo" ∈ columns (alunos_com_historico (reconciled p)).
Proof.
  intros H. pose proof (process_columns _ _ _ _ _ _ H) as (Hnc & Hname & _ & _).
  apply process_joins_cleaned in H as ((i & Hi & _) & (j & Hj & _) & Hrec).
  destruct (reconcile_eq _ _ i j Hi Hj) as (joined & Hm & Hpos & _ & Hrec').
  rewrite Hrec in Hrec'. injection Hrec' as Hp. rewrite Hp.
  cbn [alunos_com_historico]. split; [done|]. split.
  - destruct (decide (LStr "nusp" ∈ columns joined)) as [|Hno]; [done|].
    apply (positions_from_nil 0) in Hno. unfold positions in Hpos. congruence.
  - rewrite (merge_eq _ _ _ i j Hi Hj) in Hm. injection Hm as <-. cbn [columns].
    apply elem_of_app. left. apply list_elem_of_fmap. exists (LStr "Nome completo").
    split; [|done]. unfold with_suffix. rewrite bool_decide_eq_false_2; [done|].
    intros [Hin _]%list_elem_of_filter. by apply list_elem_of_delete_inv in Hin.
Qed.

Lemma joined_table_keeps_student_columns_witness :
  (LStr "Nome completo" ∉ columns (df_consolidado processed_ana_bruno))
  /\ LStr "nusp" ∈ columns (alunos_com_historico (reconciled processed_ana_bruno))
  /\ LStr "Nome completo" ∈ columns (alunos_com_historico (reconciled processed_ana_bruno)).
Proof.
  apply (joined_table_keeps_student_columns historico_calculus requerimentos_ana_bruno
           "historico.csv" "pedidos.csv" []). by vm_compute.
Defined.

(** X18: after a successful run every column that [display_new_students]
    selects is a column of the table of new students. *)
Theorem display_cols_exist raw_c raw_r name_c name_r evs p col :
  process raw_c raw_r name_c name_r = (evs, Return p) ->
  col ∈ display_cols (df_novos (reconciled p)) ->
  LStr col ∈ columns (df_novos (reconciled p)).
Proof.
  intros H. pose proof (process_columns _ _ _ _ _ _ H) as (_ & Hname & Hprob & Hnusp).
  apply process_joins_cleaned in H as (Hreq & Hcons & Hrec).
  destruct (reconcile_cleaned_rows _ _ Hreq Hcons)
    as (rec & i & j & Hrec' & _ & _ & _ & _ & _ & Hcols & _).
  rewrite Hrec in Hrec'. injection Hrec' as <-. rewrite Hcols.
  unfold display_cols. rewrite Hcols. intros [Hfixed|Hopt]%elem_of_app.
  - repeat (apply elem_of_cons in Hfixed as [->|Hfixed]; [done|]). inversion Hfixed.
  - by apply list_elem_of_filter in Hopt as [? _].
Qed.

Lemma display_cols_exist_witness :
  LStr "problema_atual" ∈ columns (df_novos (reconciled processed_ana_bruno)).
Proof.
  apply (display_cols_exist historico_calculus requerimentos_ana_bruno
           "historico.csv" "pedidos.csv" []); [by vm_compute|].
  apply (bool_decide_unpack _). by vm_compute.
Defined.

(* ================================================================= *)
(** * Formatting for display *)

Lemma re_search_denied s :
  re_search ["indeferido"; "negado"] s = contains "negado" s || contains "indeferido" s.
Proof. unfold re_search. cbn [existsb]. rewrite orb_false_r. apply orb_comm. Qed.

(** X19: the mark that [format_parecer] puts before a decision text agrees
    with the count of the overview: the cross for the texts counted as
    denied, the check for the texts counted as approved, the memo for
    the others; the text itself follows unchanged.  A missing decision
    is shown as pending. *)
Theorem format_parecer_agrees_with_counts float_str (text : string) :
  format_parecer float_str (VStr text)
  = (if negado (str_lower (VStr text)) then "❌ "
     else if aprovado (str_lower (VStr text)) then "✅ "
     else "📝 ") +:+ text
  /\ format_parecer float_str NaN = "📝 Pendente".
Proof.
  split; [|done]. unfold format_parecer, aprovado, negado.
  cbn [isna cell_str str_lower str_contains]. rewrite re_search_denied.
  unfold re_search. cbn [existsb]. rewrite orb_false_r.
  destruct (contains "negado" (lower text) || contains "indeferido" (lower text)); [done|].
  cbn [negb andb]. rewrite andb_true_r. by destruct (contains "aprovado" (lower text)).
Qed.

(** X20: [format_problem_type] shows the label of a code for exactly the
    cells that the overview counts under that code, and no cell is
    counted under both codes. *)
Theorem format_problem_type_agrees_with_counts float_str (problema : list cell) :
  (forall s,
     (format_problem_type float_str (VStr s) = "🔴 Quebra de Requisito"
      <-> str_upper (VStr s) = Some "QR")
     /\ (format_problem_type float_str (VStr s) = "🟡 Conflito de Horário"
         <-> str_upper (VStr s) = Some "CH"))
  /\ format_problem_type float_str NaN = "⚪ Não especificado"
  /\ (forall c code, (forall s, c <> VStr s) -> total_with_code code [c] = 0%nat)
  /\ (total_qr problema + total_ch problema <= length problema)%nat.
Proof.
  split; [|split; [done|split]].
  - intros s. unfold format_problem_type. cbn [isna cell_str str_upper].
    repeat case_bool_decide; split; split; intros Heq;
      try done; try congruence; try (by injection Heq); try discriminate Heq.
  - intros c code Hc. destruct c; try done. by destruct (Hc s).
  - unfold total_qr, total_ch, total_with_code.
    induction problema as [|c col IH]; [done|].
    rewrite !fmap_cons, !mask_sum_cons. cbn [length].
    repeat case_bool_decide; try lia. congruence.
Qed.

Lemma format_problem_type_agrees_with_counts_witness :
  format_problem_type (fun _ => "") (VStr "qr") = "🔴 Quebra de Requisito".
Proof.
  apply (proj1 (format_problem_type_agrees_with_counts (fun _ => "") [])). reflexivity.
Defined.

(* ================================================================= *)
(** * Dropping a column *)

Lemma positions_from_S k c cols :
  positions_from (S k) c cols = S <$> positions_from k c cols.
Proof.
  revert k; induction cols as [|h cols IH]; intros k; [done|]. simpl.
  rewrite IH. by destruct (decide (h = c)).
Qed.

Lemma getitem_labelled c df :
  getitem c df
  = match labelled c df with
    | [s] => Return s
    | [] => Raise (KeyError (py_str c))
    | _ :: _ :: _ =>
        Raise (ValueError ("The column label '" +:+ py_str c +:+ "' is not unique."))
    end.
Proof.
  unfold getitem, locate, labelled.
  by destruct (positions c (columns df)) as [|k [|k' l]].
Qed.

Lemma labelled_cons c h cols rws :
  labelled c (Frame (h :: cols) rws)
  = (if decide (h = c) then [at_pos 0 <$> rws] else [])
      ++ labelled c (Frame cols (tail <$> rws)).
Proof.
  unfold labelled, positions. cbn [columns positions_from].
  assert (Hshift : (fun k => series k (Frame (h :: cols) rws)) <$> positions_from 1 c cols
                   = (fun k => series k (Frame cols (tail <$> rws)))
                       <$> positions_from 0 c cols).
  { rewrite positions_from_S, <- list_fmap_compose. apply list_fmap_ext.
    intros _ k _. unfold compose, series. cbn [rows]. rewrite <- list_fmap_compose.
    apply list_fmap_ext. intros _ r _. by destruct r. }
  destruct (decide (h = c)); cbn [fmap list_fmap app]; by rewrite <- Hshift.
Qed.

Lemma select_nil {A} (keep : list bool) : select keep ([] : list A) = [].
Proof. by destruct keep as [|[] keep]. Qed.

Lemma labelled_drop_column c c' cols rws :
  c' <> c ->
  labelled c' (drop_column c (Frame cols rws)) = labelled c' (Frame cols rws).
Proof.
  intros Hne. revert rws. induction cols as [|h cols IH]; intros rws; [done|].
  rewrite labelled_cons, <- IH.
  unfold drop_column. cbn [columns rows fmap list_fmap].
  destruct (decide (h = c)) as [->|Hh].
  - rewrite bool_decide_eq_false_2 by (by intros []). cbn [select].
    rewrite decide_False by done. cbn [app]. f_equal. f_equal.
    rewrite <- list_fmap_compose. apply list_fmap_ext. intros _ r _.
    unfold compose. destruct r; cbn [select tail]; by rewrite ?select_nil.
  - rewrite bool_decide_eq_true_2 by done. cbn [select].
    rewrite labelled_cons. f_equal.
    + destruct (decide (h = c')); [|done]. f_equal.
      rewrite <- list_fmap_compose. apply list_fmap_ext. intros _ r _. by destruct r.
    + f_equal. f_equal. rewrite <- !list_fmap_compose. apply list_fmap_ext.
      intros _ r _. unfold compose. destruct r; cbn [select tail]; by rewrite ?select_nil.
Qed.

Lemma getitem_drop_column c c' df :
  c' <> c -> getitem c' (drop_column c df) = getitem c' df.
Proof.
  intros Hne. rewrite !getitem_labelled. destruct df as [cols rws].
  by rewrite labelled_drop_column.
Qed.

(** X21: dropping the columns labelled [c] leaves every other column as
    it was: reading a column with another label gives the same cells, or
    the same exception, before and after. *)
Theorem drop_column_keeps_other_columns c c' df :
  c' <> c -> getitem c' (drop_column c df) = getitem c' df.
Proof. apply getitem_drop_column. Qed.

Lemma drop_column_keeps_other_columns_witness :
  getitem (LStr "nusp")
    (drop_column (LStr "Nome completo")
       (Frame [LStr "Nome completo"; LStr "nusp"] [[VStr "Ana"; VInt 123]]))
  = getitem (LStr "nusp")
      (Frame [LStr "Nome completo"; LStr "nusp"] [[VStr "Ana"; VInt 123]]).
Proof. by apply drop_column_keeps_other_columns. Defined.

(* ================================================================= *)
(** * Failures of the normalizer in [run_app] *)

(** X22: a failure of the normalizer ends the run with that failure as the
    only message, the historical table first: when the historical table
    fails, the current table is not looked at; no row is cleaned in
    either case. *)
Theorem normalizer_failure_ends_run raw_c raw_r name_c name_r e :
  (find_and_rename_nusp_column raw_c = Raise e ->
   run_app raw_c raw_r name_c name_r = ([shown_error e], None))
  /\ (forall df_c,
        find_and_rename_nusp_column raw_c = Return df_c ->
        find_and_rename_nusp_column raw_r = Raise e ->
        run_app raw_c raw_r name_c name_r = ([shown_error e], None)).
Proof.
  split.
  - intros Hc. unfold run_app, process. rewrite Hc. by destruct e.
  - intros df_c Hc Hr. unfold run_app, process. rewrite Hc, Hr. by destruct e.
Qed.

Lemma normalizer_failure_ends_run_witness :
  run_app (Frame [LStr "Nome"] []) requerimentos_abc "historico.csv" "pedidos.csv"
  = ([validation_error
        (missing_nusp_message "Nome")], None).
Proof.
  apply (proj1 (normalizer_failure_ends_run (Frame [LStr "Nome"] []) requerimentos_abc
                  "historico.csv" "pedidos.csv"
                  (ValueError (missing_nusp_message "Nome")))).
  by vm_compute.
Defined.

(* ================================================================= *)
(** * When the processing block returns *)

Lemma getitem_Return c df vs :
  getitem c df = Return vs ->
  exists i, positions c (columns df) = [i] /\ vs = series i df.
Proof.
  unfold getitem, locate. destruct (positions c (columns df)) as [|i [|i' l]]; try done.
  intros [= <-]. by exists i.
Qed.

Lemma preprocess_data_finite df name ids :
  getitem (LStr "nusp") df = Return ids ->
  (forall v b, v ∈ ids -> to_numeric v <> VInf b) ->
  exists evs df', preprocess_data df name = (evs, Return df').
Proof.
  intros (i & Hi & ->)%getitem_Return Hfin. eexists _, _.
  apply (preprocess_data_Return df name i Hi).
  intros r b Hr. apply Hfin. unfold series. by apply list_elem_of_fmap_2.
Qed.

Lemma positions_from_delete k c cols j :
  positions_from k c cols = [j] ->
  exists m, j = (k + m)%nat /\ delete m cols = filter (fun c' => c' <> c) cols.
Proof.
  revert k. induction cols as [|c' cols IH]; intros k; cbn [positions_from]; [done|].
  destruct (decide (c' = c)) as [->|Hne].
  - intros [= <- Hrest]. exists 0%nat. split; [lia|].
    change (delete 0%nat (c :: cols)) with cols.
    rewrite filter_cons_False by (intros Hc; by apply Hc).
    symmetry. apply filter_all. intros c' Hin ->.
    apply list_elem_of_lookup in Hin as (m & Hm).
    assert (Hpos : (S k + m)%nat ∈ positions_from (S k) c cols)
      by (apply positions_from_spec; eauto).
    rewrite Hrest in Hpos. inversion Hpos.
  - intros (m & -> & Hdel)%IH. exists (S m). split; [lia|].
    change (delete (S m) (c' :: cols)) with (c' :: delete m cols).
    rewrite filter_cons_True by done. by rewrite Hdel.
Qed.

Lemma positions_delete_filter c cols j :
  positions c cols = [j] -> delete j cols = filter (fun c' => c' <> c) cols.
Proof. by intros (m & -> & Hdel)%positions_from_delete. Qed.

Lemma req_rename_map_columns df df' :
  columns df = columns df' -> req_rename_map df = req_rename_map df'.
Proof. intros Hcols. unfold req_rename_map, in_columns. by rewrite Hcols. Qed.

(** Without a shared label other than the key, the join gives no
    suffix. *)
Lemma merge_columns_disjoint left right i j joined :
  positions (LStr "nusp") (columns left) = [i] ->
  positions (LStr "nusp") (columns right) = [j] ->
  shared_labels (columns left) (columns right) = [LStr "nusp"] ->
  merge left right (LStr "nusp") = Return joined ->
  columns joined
  = columns left ++ filter (fun c => c <> LStr "nusp") (columns right).
Proof.
  intros Hi Hj Hshared. rewrite (merge_eq _ _ _ i j Hi Hj). intros [= <-]. cbn [columns].
  assert (Hnone : filter (fun c => c ∈ delete j (columns right)) (columns left) = []).
  { apply filter_none. intros c Hc Hin.
    assert (Hs : c ∈ shared_labels (columns left) (columns right)).
    { apply list_elem_of_filter. split; [|done].
      by apply list_elem_of_delete_inv in Hin. }
    rewrite Hshared in Hs. apply list_elem_of_singleton in Hs as ->.
    by apply (positions_delete _ _ _ Hj). }
  rewrite Hnone, (positions_delete_filter _ _ _ Hj).
  rewrite !fmap_fixed; [done| |]; intros c _; unfold with_suffix;
    by rewrite bool_decide_eq_false_2 by (intros Hin; inversion Hin).
Qed.

Lemma processing_returns_columns raw_c raw_r name_c name_r df_c df_r ids_c ids_r :
  find_and_rename_nusp_column raw_c = Return df_c ->
  find_and_rename_nusp_column raw_r = Return df_r ->
  validate_dataframes df_c df_r = Return tt ->
  getitem (LStr "nusp") df_c = Return ids_c ->
  getitem (LStr "nusp") df_r = Return ids_r ->
  (forall v b, v ∈ ids_c ++ ids_r -> to_numeric v <> VInf b) ->
  shared_labels (current_labels df_r) (historical_labels df_c) = [LStr "nusp"] ->
  exists evs p,
    process raw_c raw_r name_c name_r = (evs, Return p)
    /\ only_warnings 2 evs
    /\ columns (alunos_com_historico (reconciled p))
       = current_labels df_r
           ++ filter (fun c => c <> LStr "nusp") (historical_labels df_c).
Proof.
  intros Hc Hr Hv Hic Hir Hfin Hshared. unfold historical_labels in *.
  set (df_c' := if in_columns (LStr "Nome completo") df_c
                then drop_column (LStr "Nome completo") df_c else df_c) in *.
  assert (Hic' : getitem (LStr "nusp") df_c' = Return ids_c).
  { unfold df_c'. destruct (in_columns _ df_c); [|done].
    by rewrite getitem_drop_column. }
  destruct (preprocess_data_finite df_c' name_c ids_c Hic') as (evs_c & clean_c & Hpc).
  { intros v b Hin. apply Hfin, elem_of_app. by left. }
  destruct (preprocess_data_finite df_r name_r ids_r Hir) as (evs_r & clean_r & Hpr).
  { intros v b Hin. apply Hfin, elem_of_app. by right. }
  pose proof (cols_to_rename_hist_cleaned _ (preprocess_data_cleaned _ _ _ _ Hpc)) as Hcc.
  pose proof (req_rename_map_cleaned _ clean_r (preprocess_data_cleaned _ _ _ _ Hpr)) as Hcr.
  destruct Hcr as (i & Hi & Hint_r). destruct Hcc as (j & Hj & Hint_c).
  destruct (reconcile_eq _ _ i j Hi Hj) as (joined & Hm & _ & _ & Hrec).
  set (rec := Reconciliation joined _ _) in Hrec.
  assert (Hprocess : process raw_c raw_r name_c name_r
                     = (evs_c ++ evs_r,
                        Return (Processed (rename cols_to_rename_hist clean_c)
                                  (rename (req_rename_map clean_r) clean_r) rec))).
  { unfold process. rewrite Hc. cbn [lift mbind M_bind]. rewrite Hr.
    cbn [lift mbind M_bind]. rewrite Hv. cbn [lift mbind M_bind]. fold df_c'.
    rewrite Hpc. cbn [lift mbind M_bind]. rewrite Hpr. cbn [lift mbind M_bind].
    rewrite Hrec. cbn. by rewrite !app_nil_r. }
  pose proof (only_warnings_process raw_c raw_r name_c name_r) as Hw.
  rewrite Hprocess in Hw. eexists _, _. split; [exact Hprocess|]. split; [exact Hw|].
  unfold rec. cbn [reconciled alunos_com_historico].
  apply preprocess_data_columns in Hpc, Hpr.
  assert (Hleft : columns (rename (req_rename_map clean_r) clean_r) = current_labels df_r).
  { unfold current_labels, rename. cbn [columns].
    by rewrite (req_rename_map_columns clean_r df_r Hpr), Hpr. }
  assert (Hright : columns (rename cols_to_rename_hist clean_c)
                   = columns (rename cols_to_rename_hist df_c')).
  { unfold rename. cbn [columns]. by rewrite Hpc. }
  rewrite <- Hleft, <- Hright.
  apply (merge_columns_disjoint _ _ i j); try done.
  by rewrite Hleft, Hright.
Qed.

(** X23: sufficient conditions for the processing block to return.  When
    the normalizer and the validator accept the two tables, each
    normalised table has a single [nusp] column whose identifiers are
    within the exact range and none of them infinite, and the two
    tables, once renamed, share no label but [nusp], the block returns
    its result and shows only warnings of the cleaner; the joined table
    has the columns of the current table followed by those of the
    historical table without its [nusp], none of them with a suffix. *)
Theorem processing_returns raw_c raw_r name_c name_r df_c df_r ids_c ids_r :
  find_and_rename_nusp_column raw_c = Return df_c ->
  find_and_rename_nusp_column raw_r = Return df_r ->
  validate_dataframes df_c df_r = Return tt ->
  getitem (LStr "nusp") df_c = Return ids_c ->
  getitem (LStr "nusp") df_r = Return ids_r ->
  (forall v, v ∈ ids_c ++ ids_r -> exact_cell v = true) ->
  (forall v b, v ∈ ids_c ++ ids_r -> to_numeric v <> VInf b) ->
  shared_labels (current_labels df_r) (historical_labels df_c) = [LStr "nusp"] ->
  exists evs p,
    process raw_c raw_r name_c name_r = (evs, Return p)
    /\ only_warnings 2 evs
    /\ columns (alunos_com_historico (reconciled p))
       = current_labels df_r
           ++ filter (fun c => c <> LStr "nusp") (historical_labels df_c).
Proof. intros Hc Hr Hv Hic Hir _. by apply processing_returns_columns. Qed.

Lemma processing_returns_witness :
  exists evs p,
    process historico_calculus requerimentos_ana_bruno "historico.csv" "pedidos.csv"
    = (evs, Return p)
    /\ only_warnings 2 evs
    /\ columns (alunos_com_historico (reconciled p))
       = [LStr "nusp"; LStr "Nome completo"; LStr "problema_atual";
          LStr "disciplina_historico"; LStr "Ano_historico"; LStr "Semestre_historico";
          LStr "problema_historico"; LStr "parecer_historico"].
Proof.
  destruct (processing_returns historico_calculus requerimentos_ana_bruno
              "historico.csv" "pedidos.csv" (renamed historico_calculus)
              (renamed requerimentos_ana_bruno) [VInt 123] [VInt 123; VInt 456])
    as (evs & p & Hp & Hw & Hcols).
  - by vm_compute.
  - by vm_compute.
  - by vm_compute.
  - by vm_compute.
  - by vm_compute.
  - intros v Hin. cbn [app] in Hin.
    repeat (apply elem_of_cons in Hin as [->|Hin]; [by vm_compute|]). inversion Hin.
  - intros v b Hin. cbn [app] in Hin.
    repeat (apply elem_of_cons in Hin as [->|Hin]; [done|]). inversion Hin.
  - by vm_compute.
  - exists evs, p. split; [exact Hp|]. split; [exact Hw|].
    rewrite Hcols. by vm_compute.
Defined.
